(** * PKP Tool Registry: the policy facet

    A shallow embedding of
    [packages/aw-contracts/src/facets/PKPToolRegistryPolicyFacet.sol]:
    the two read functions that resolve the policy of a tool for a
    delegatee, and the four owner-gated batch functions that set, remove,
    enable and disable delegatee-specific policies.

    Contract storage is a record of finite maps read with Solidity's
    zero default; an external call is a computation over the storage and
    the event log, and a [Revert] rolls both back to their state at the
    start of the call. *)

From Stdlib Require Import ZArith Bool.
From stdpp Require Import gmap strings list.

Local Open Scope Z_scope.

(** ** Solidity value types *)

Abbreviation uint256 := Z (only parsing).
Abbreviation address := Z (only parsing).
Abbreviation bytes32 := Z (only parsing).

(** [mapping(K => V)]: a key that was never written reads as the zero
    value of [V]. *)
Definition mapping_get `{Countable K} {V : Type} (zero : V)
    (m : gmap K V) (k : K) : V :=
  default zero (m !! k).

(** ** Storage layout *)

(** Modelled from the spec: [libraries/PKPToolRegistryStorage.sol] is not
    among the sources. The records below carry the fields that the facet
    reads and writes ([policyIpfsCidHash], [enabled], [blanketPolicy],
    [delegateeCustomPolicies], [toolCids], [toolMap], [pkpStore],
    [hashedPolicyCidToOriginalCid]) with the keying of the spec's state
    model: key entity id -> (tool id set, tool id -> tool info), tool
    info -> (enabled, blanket policy, delegatee -> custom policy), and the
    global reverse index from content hash to original identifier. *)
Record Policy := mkPolicy {
  enabled : bool;
  policyIpfsCidHash : bytes32
}.

Record ToolInfo := mkToolInfo {
  toolEnabled : bool;
  blanketPolicy : gmap Z Policy;
  delegateeCustomPolicies : gmap Z Policy
}.

Record PKPData := mkPKPData {
  toolCids : gset Z;
  toolMap : gmap Z ToolInfo
}.

Record Layout := mkLayout {
  pkpStore : gmap Z PKPData;
  hashedPolicyCidToOriginalCid : gmap Z string
}.

Definition Policy_zero : Policy := mkPolicy false 0.
Definition ToolInfo_zero : ToolInfo := mkToolInfo false ∅ ∅.
Definition PKPData_zero : PKPData := mkPKPData ∅ ∅.
Definition Layout_zero : Layout := mkLayout ∅ ∅.

(** Storage reads, one per mapping of the layout. *)
Definition pkpStore_at (l : Layout) (pkpTokenId : uint256) : PKPData :=
  mapping_get PKPData_zero (pkpStore l) pkpTokenId.

Definition toolMap_at (pkpData : PKPData) (toolCidHash : bytes32) : ToolInfo :=
  mapping_get ToolInfo_zero (toolMap pkpData) toolCidHash.

Definition customPolicy_at (tool : ToolInfo) (delegatee : address) : Policy :=
  mapping_get Policy_zero (delegateeCustomPolicies tool) delegatee.

Definition blanketPolicy_at (tool : ToolInfo) (slot : uint256) : Policy :=
  mapping_get Policy_zero (blanketPolicy tool) slot.

Definition originalCid_at (l : Layout) (cidHash : bytes32) : string :=
  mapping_get EmptyString (hashedPolicyCidToOriginalCid l) cidHash.

(** ** Errors, events and the result of a call *)

(** The custom errors of [PKPToolRegistryErrors] that the facet can raise,
    and [Panic] for an array index out of bounds. *)
Inductive Error :=
| ToolNotFound (toolIpfsCid : string)
| ArrayLengthMismatch
| InvalidDelegatee
| NotPKPOwner
| EmptyIPFSCID
| EmptyPolicyIPFSCID
| NoPolicySet
| Panic.

Inductive Event :=
| ToolPoliciesSet (pkpTokenId : uint256) (toolIpfsCids : list string)
    (delegatees : list address) (policyIpfsCids : list string)
    (enablePolicies : bool)
| ToolPoliciesRemoved (pkpTokenId : uint256) (toolIpfsCids : list string)
    (delegatees : list address)
| PoliciesEnabled (pkpTokenId : uint256) (toolIpfsCids : list string)
    (delegatees : list address)
| PoliciesDisabled (pkpTokenId : uint256) (toolIpfsCids : list string)
    (delegatees : list address).

Inductive result (A : Type) :=
| Ok (a : A)
| Revert (e : Error).
Arguments Ok {A} a.
Arguments Revert {A} e.

(** What a call works on: the contract storage and the log of emitted
    events. *)
Record World := mkWorld {
  storage : Layout;
  logs : list Event
}.

(** ** Computations of the contract

    A computation returns its result together with the working state it
    reached. After a [Revert] that working state is the one at the point
    of failure; [external_call] is what discards it. *)
Definition M (A : Type) : Type := World -> result A * World.

Definition ret {A} (a : A) : M A := fun w => (Ok a, w).

Definition bind {A B} (m : M A) (f : A -> M B) : M B :=
  fun w =>
    match m w with
    | (Ok a, w') => f a w'
    | (Revert e, w') => (Revert e, w')
    end.

Definition revert {A} (e : Error) : M A := fun w => (Revert e, w).

Definition modify_storage (f : Layout -> Layout) : M unit :=
  fun w => (Ok tt, mkWorld (f (storage w)) (logs w)).

Definition emit (ev : Event) : M unit :=
  fun w => (Ok tt, mkWorld (storage w) (logs w ++ [ev])).

Notation "'let*' x := c1 'in' c2" := (bind c1 (fun x => c2))
  (at level 10, x name, c1 at level 100, c2 at level 200).
Notation "c1 >> c2" := (bind c1 (fun _ => c2))
  (at level 100, c2 at level 200, right associativity).

(** [arr[i]] on a calldata array. *)
Definition array_get {A} (arr : list A) (i : nat) : M A :=
  match arr !! i with
  | Some x => ret x
  | None => revert Panic
  end.

(** [for (uint256 i = start; i < start + count;) { body(i); unchecked { ++i; } }] *)
Fixpoint for_range (start count : nat) (body : nat -> M unit) : M unit :=
  match count with
  | O => ret tt
  | S count' => body start >> for_range (S start) count' body
  end.

(** A transaction: the effects of a computation that reverts are undone,
    storage and log are those before the call. *)
Definition external_call {A} (m : M A) (w : World) : result A * World :=
  match m w with
  | (Ok a, w') => (Ok a, w')
  | (Revert e, _) => (Revert e, w)
  end.

(** [bytes(s).length == 0] *)
Definition is_empty_string (s : string) : bool :=
  match s with
  | EmptyString => true
  | String _ _ => false
  end.

(** ** Storage writes *)

(** [l.pkpStore[pkpTokenId].toolMap[toolCidHash].delegateeCustomPolicies[delegatee] = p] *)
Definition write_customPolicy (l : Layout) (pkpTokenId : uint256)
    (toolCidHash : bytes32) (delegatee : address) (p : Policy) : Layout :=
  let pkpData := pkpStore_at l pkpTokenId in
  let tool := toolMap_at pkpData toolCidHash in
  let tool' := mkToolInfo (toolEnabled tool) (blanketPolicy tool)
                 (<[delegatee := p]> (delegateeCustomPolicies tool)) in
  let pkpData' := mkPKPData (toolCids pkpData)
                    (<[toolCidHash := tool']> (toolMap pkpData)) in
  mkLayout (<[pkpTokenId := pkpData']> (pkpStore l))
           (hashedPolicyCidToOriginalCid l).

(** [l.hashedPolicyCidToOriginalCid[cidHash] = cid] *)
Definition write_originalCid (l : Layout) (cidHash : bytes32)
    (cid : string) : Layout :=
  mkLayout (pkpStore l) (<[cidHash := cid]> (hashedPolicyCidToOriginalCid l)).

(** The custom policy of a delegatee on a tool of a PKP, read through the
    three mappings. *)
Definition customPolicy_of (l : Layout) (pkpTokenId : uint256)
    (toolCidHash : bytes32) (delegatee : address) : Policy :=
  customPolicy_at (toolMap_at (pkpStore_at l pkpTokenId) toolCidHash) delegatee.

(** Two storages with the same registered tools and the same custom
    policy hashes; they may differ in the enabled flags. *)
Definition same_shape (l' l : Layout) : Prop :=
  (forall pkpTokenId,
     toolCids (pkpStore_at l' pkpTokenId) = toolCids (pkpStore_at l pkpTokenId))
  /\
  (forall pkpTokenId toolCidHash delegatee,
     policyIpfsCidHash (customPolicy_of l' pkpTokenId toolCidHash delegatee) =
     policyIpfsCidHash (customPolicy_of l pkpTokenId toolCidHash delegatee)).

Section PolicyFacet.

(** The pieces of the deployment that are not in the facet's file: the
    hash of a tool identifier ([_hashToolCid] of the base contract), the
    content hash taken of a policy identifier, and the ownership oracle
    that maps a PKP token id to its current owner. *)
Variable _hashToolCid : string -> bytes32.
Variable _hashPolicyCid : string -> bytes32.
Variable ownerOf : uint256 -> address.

(** *** Read functions *)

Definition getEffectiveToolPolicyForDelegatee (msg_sender : address)
    (l : Layout) (pkpTokenId : uint256) (toolIpfsCid : string)
    (delegatee : address) : result (string * bool) :=
  let pkpData := pkpStore_at l pkpTokenId in
  let toolCidHash := _hashToolCid toolIpfsCid in
  if negb (bool_decide (toolCidHash ∈ toolCids pkpData)) then
    Revert (ToolNotFound toolIpfsCid)
  else
    let tool := toolMap_at pkpData toolCidHash in
    let delegateePolicy := customPolicy_at tool delegatee in
    if negb (policyIpfsCidHash delegateePolicy =? 0) && enabled delegateePolicy then
      Ok (originalCid_at l (policyIpfsCidHash delegateePolicy), true)
    else
      let blanket := blanketPolicy_at tool 0 in
      if negb (policyIpfsCidHash blanket =? 0) && enabled blanket then
        Ok (originalCid_at l (policyIpfsCidHash blanket), false)
      else
        Ok (EmptyString, false).

Definition getCustomToolPolicyForDelegatee (msg_sender : address)
    (l : Layout) (pkpTokenId : uint256) (toolIpfsCid : string)
    (delegatee : address) : result (string * bool) :=
  let pkpData := pkpStore_at l pkpTokenId in
  let toolCidHash := _hashToolCid toolIpfsCid in
  if negb (bool_decide (toolCidHash ∈ toolCids pkpData)) then
    Revert (ToolNotFound toolIpfsCid)
  else
    let tool := toolMap_at pkpData toolCidHash in
    let policy := customPolicy_at tool delegatee in
    if negb (policyIpfsCidHash policy =? 0) then
      Ok (originalCid_at l (policyIpfsCidHash policy), enabled policy)
    else
      Ok (EmptyString, false).

(** *** The base contract *)

(** Modelled from the spec: the modifier [onlyPKPOwner] of the base
    contract is not among the sources. Access Guard: the caller must
    equal the externally resolved owner of the key entity, the call
    fails with the not-owner error otherwise, and the check runs before
    any other validation of the entry point. *)
Definition onlyPKPOwner {A} (msg_sender : address) (pkpTokenId : uint256)
    (body : M A) : M A :=
  if bool_decide (msg_sender = ownerOf pkpTokenId) then body
  else revert NotPKPOwner.

(** The tool is a member of the PKP's registered set. *)
Definition tool_registered (l : Layout) (pkpTokenId : uint256)
    (toolIpfsCid : string) : bool :=
  bool_decide (_hashToolCid toolIpfsCid ∈ toolCids (pkpStore_at l pkpTokenId)).

(** Modelled from the spec: [_setToolPolicy] of
    [abstract/PKPToolRegistryPolicyBase.sol] is not among the sources.
    Validation errors (empty tool identifier, empty policy identifier,
    both listed in the facet's documentation of the entry point) come
    before any state is touched, then the tool must exist; the set
    records the content hash of the new policy identifier, writes the
    reverse index entry of that hash and sets the enabled flag of the
    custom policy to the value supplied by the caller. *)
Definition _setToolPolicy (pkpTokenId : uint256) (toolIpfsCid : string)
    (delegatee : address) (policyIpfsCid : string) (enablePolicies : bool)
    : M unit :=
  fun w =>
    let l := storage w in
    if is_empty_string toolIpfsCid then revert EmptyIPFSCID w
    else if is_empty_string policyIpfsCid then revert EmptyPolicyIPFSCID w
    else if negb (tool_registered l pkpTokenId toolIpfsCid) then
      revert (ToolNotFound toolIpfsCid) w
    else
      let policyIpfsCidHash := _hashPolicyCid policyIpfsCid in
      modify_storage (fun l =>
        write_customPolicy
          (write_originalCid l policyIpfsCidHash policyIpfsCid)
          pkpTokenId (_hashToolCid toolIpfsCid) delegatee
          (mkPolicy enablePolicies policyIpfsCidHash)) w.

(** Modelled from the spec: [_removeToolPolicy] of the base contract is
    not among the sources. The tool identifier must be non-empty and the
    tool must exist, removing a policy that was never set fails with
    the no-policy error, and the removal clears the custom policy slot
    entirely (its hash reads zero afterwards). *)
Definition _removeToolPolicy (pkpTokenId : uint256) (toolIpfsCid : string)
    (delegatee : address) : M unit :=
  fun w =>
    let l := storage w in
    let toolCidHash := _hashToolCid toolIpfsCid in
    if is_empty_string toolIpfsCid then revert EmptyIPFSCID w
    else if negb (tool_registered l pkpTokenId toolIpfsCid) then
      revert (ToolNotFound toolIpfsCid) w
    else if policyIpfsCidHash (customPolicy_of l pkpTokenId toolCidHash delegatee) =? 0 then
      revert NoPolicySet w
    else
      modify_storage (fun l =>
        write_customPolicy l pkpTokenId toolCidHash delegatee Policy_zero) w.

(** Modelled from the spec: the body shared by [_enablePolicy] and
    [_disablePolicy] of the base contract, which are not among the
    sources. The tool identifier must be non-empty and the tool must
    exist, toggling fails with the no-policy error if no custom policy
    hash exists at the slot (it is an error, not a no-op), and otherwise
    the flag is the only thing that changes. *)
Definition set_policy_flag (pkpTokenId : uint256) (toolIpfsCid : string)
    (delegatee : address) (flag : bool) : M unit :=
  fun w =>
    let l := storage w in
    let toolCidHash := _hashToolCid toolIpfsCid in
    let policy := customPolicy_of l pkpTokenId toolCidHash delegatee in
    if is_empty_string toolIpfsCid then revert EmptyIPFSCID w
    else if negb (tool_registered l pkpTokenId toolIpfsCid) then
      revert (ToolNotFound toolIpfsCid) w
    else if policyIpfsCidHash policy =? 0 then revert NoPolicySet w
    else
      modify_storage (fun l =>
        write_customPolicy l pkpTokenId toolCidHash delegatee
          (mkPolicy flag (policyIpfsCidHash policy))) w.

(** Modelled from the spec: [_enablePolicy] of the base contract is not
    among the sources; the shared body with the flag set. *)
Definition _enablePolicy (pkpTokenId : uint256) (toolIpfsCid : string)
    (delegatee : address) : M unit :=
  set_policy_flag pkpTokenId toolIpfsCid delegatee true.

(** Modelled from the spec: [_disablePolicy] of the base contract is not
    among the sources; the shared body with the flag cleared. *)
Definition _disablePolicy (pkpTokenId : uint256) (toolIpfsCid : string)
    (delegatee : address) : M unit :=
  set_policy_flag pkpTokenId toolIpfsCid delegatee false.

(** *** Batch functions *)

(** One iteration of the loop shared by the four batch functions: the
    zero-address check on [delegatees[i]], then the helper on
    [toolIpfsCids[i]] and [delegatees[i]]. *)
Definition each_delegatee (toolIpfsCids : list string)
    (delegatees : list address) (helper : string -> address -> M unit)
    (i : nat) : M unit :=
  let* delegatee := array_get delegatees i in
  if delegatee =? 0 then revert InvalidDelegatee
  else
    let* toolIpfsCid := array_get toolIpfsCids i in
    helper toolIpfsCid delegatee.

(** The iteration of the set loop, which also reads [policyIpfsCids[i]]. *)
Definition set_each (pkpTokenId : uint256) (toolIpfsCids : list string)
    (delegatees : list address) (policyIpfsCids : list string)
    (enablePolicies : bool) (i : nat) : M unit :=
  let* delegatee := array_get delegatees i in
  if delegatee =? 0 then revert InvalidDelegatee
  else
    let* toolIpfsCid := array_get toolIpfsCids i in
    let* policyIpfsCid := array_get policyIpfsCids i in
    _setToolPolicy pkpTokenId toolIpfsCid delegatee policyIpfsCid
      enablePolicies.

Definition setCustomToolPoliciesForDelegatees (msg_sender : address)
    (pkpTokenId : uint256) (toolIpfsCids : list string)
    (delegatees : list address) (policyIpfsCids : list string)
    (enablePolicies : bool) : M unit :=
  onlyPKPOwner msg_sender pkpTokenId (
    if negb (length toolIpfsCids =? length delegatees)%nat
       || negb (length delegatees =? length policyIpfsCids)%nat
    then revert ArrayLengthMismatch
    else
      for_range 0 (length toolIpfsCids)
        (set_each pkpTokenId toolIpfsCids delegatees policyIpfsCids
           enablePolicies) >>
      emit (ToolPoliciesSet pkpTokenId toolIpfsCids delegatees
              policyIpfsCids enablePolicies)).

Definition removeCustomToolPoliciesForDelegatees (msg_sender : address)
    (pkpTokenId : uint256) (toolIpfsCids : list string)
    (delegatees : list address) : M unit :=
  onlyPKPOwner msg_sender pkpTokenId (
    if negb (length toolIpfsCids =? length delegatees)%nat
    then revert ArrayLengthMismatch
    else
      for_range 0 (length toolIpfsCids)
        (each_delegatee toolIpfsCids delegatees
           (_removeToolPolicy pkpTokenId)) >>
      emit (ToolPoliciesRemoved pkpTokenId toolIpfsCids delegatees)).

Definition enableCustomToolPoliciesForDelegatees (msg_sender : address)
    (pkpTokenId : uint256) (toolIpfsCids : list string)
    (delegatees : list address) : M unit :=
  onlyPKPOwner msg_sender pkpTokenId (
    if negb (length toolIpfsCids =? length delegatees)%nat
    then revert ArrayLengthMismatch
    else
      for_range 0 (length toolIpfsCids)
        (each_delegatee toolIpfsCids delegatees
           (_enablePolicy pkpTokenId)) >>
      emit (PoliciesEnabled pkpTokenId toolIpfsCids delegatees)).

Definition disableCustomToolPoliciesForDelegatees (msg_sender : address)
    (pkpTokenId : uint256) (toolIpfsCids : list string)
    (delegatees : list address) : M unit :=
  onlyPKPOwner msg_sender pkpTokenId (
    if negb (length toolIpfsCids =? length delegatees)%nat
    then revert ArrayLengthMismatch
    else
      for_range 0 (length toolIpfsCids)
        (each_delegatee toolIpfsCids delegatees
           (_disablePolicy pkpTokenId)) >>
      emit (PoliciesDisabled pkpTokenId toolIpfsCids delegatees)).

(** *** Vocabulary of the statements *)

(** The storage after the writes of [_setToolPolicy] on tool [t],
    delegatee [d] and policy [p]. *)
Definition set_written (pkpTokenId : uint256) (enablePolicies : bool)
    (l : Layout) (t : string) (d : address) (p : string) : Layout :=
  write_customPolicy (write_originalCid l (_hashPolicyCid p) p)
    pkpTokenId (_hashToolCid t) d (mkPolicy enablePolicies (_hashPolicyCid p)).

(** The error a guarded entry point raises on arrays of unequal length:
    the modifier runs first. *)
Definition entry_error (msg_sender : address) (pkpTokenId : uint256) : Error :=
  if bool_decide (msg_sender = ownerOf pkpTokenId) then ArrayLengthMismatch
  else NotPKPOwner.

(** Element [j] of a set batch passes every check of its iteration in
    storage [l]: non-zero delegatee, non-empty tool and policy
    identifiers, registered tool. *)
Definition set_element_passes (l : Layout) (pkpTokenId : uint256)
    (toolIpfsCids : list string) (delegatees : list address)
    (policyIpfsCids : list string) (j : nat) : bool :=
  match toolIpfsCids !! j, delegatees !! j, policyIpfsCids !! j with
  | Some toolIpfsCid, Some delegatee, Some policyIpfsCid =>
      negb (delegatee =? 0) && negb (is_empty_string toolIpfsCid)
      && negb (is_empty_string policyIpfsCid)
      && tool_registered l pkpTokenId toolIpfsCid
  | _, _, _ => false
  end.

(** Element [j] of an enable or disable batch passes every check of its
    iteration in storage [l]: non-zero delegatee, non-empty identifier,
    registered tool, a custom policy hash at the slot. *)
Definition flag_element_passes (l : Layout) (pkpTokenId : uint256)
    (toolIpfsCids : list string) (delegatees : list address) (j : nat)
    : bool :=
  match toolIpfsCids !! j, delegatees !! j with
  | Some toolIpfsCid, Some delegatee =>
      negb (delegatee =? 0) && negb (is_empty_string toolIpfsCid)
      && tool_registered l pkpTokenId toolIpfsCid
      && negb (policyIpfsCidHash
                 (customPolicy_of l pkpTokenId (_hashToolCid toolIpfsCid)
                    delegatee) =? 0)
  | _, _ => false
  end.

End PolicyFacet.

(** ** The error of one element

    What iteration [j] of a loop raises in storage [l], in the order in
    which the iteration makes its checks: the read of [delegatees[j]],
    the zero-address check, the reads of the other arrays, then the
    checks of the helper. [None] when the element passes them all. *)

Section ElementErrors.

Variable _hashToolCid : string -> bytes32.

Definition set_element_error (l : Layout) (pkpTokenId : uint256)
    (toolIpfsCids : list string) (delegatees : list address)
    (policyIpfsCids : list string) (j : nat) : option Error :=
  match delegatees !! j with
  | None => Some Panic
  | Some delegatee =>
      if delegatee =? 0 then Some InvalidDelegatee
      else
        match toolIpfsCids !! j, policyIpfsCids !! j with
        | Some toolIpfsCid, Some policyIpfsCid =>
            if is_empty_string toolIpfsCid then Some EmptyIPFSCID
            else if is_empty_string policyIpfsCid then Some EmptyPolicyIPFSCID
            else if negb (tool_registered _hashToolCid l pkpTokenId toolIpfsCid)
            then Some (ToolNotFound toolIpfsCid)
            else None
        | _, _ => Some Panic
        end
  end.

Definition flag_element_error (l : Layout) (pkpTokenId : uint256)
    (toolIpfsCids : list string) (delegatees : list address) (j : nat)
    : option Error :=
  match delegatees !! j with
  | None => Some Panic
  | Some delegatee =>
      if delegatee =? 0 then Some InvalidDelegatee
      else
        match toolIpfsCids !! j with
        | Some toolIpfsCid =>
            if is_empty_string toolIpfsCid then Some EmptyIPFSCID
            else if negb (tool_registered _hashToolCid l pkpTokenId toolIpfsCid)
            then Some (ToolNotFound toolIpfsCid)
            else if policyIpfsCidHash
                      (customPolicy_of l pkpTokenId (_hashToolCid toolIpfsCid)
                         delegatee) =? 0
            then Some NoPolicySet
            else None
        | None => Some Panic
        end
  end.

End ElementErrors.

(** ** The entry points with the helper as a parameter

    What the facet's own file fixes of a batch function: the modifier,
    the length check, the loop with its zero-address check and array
    reads, and the event after the loop. The helper of the base contract
    that the loop calls is a parameter here, so a statement about these
    definitions holds whatever the helper does. *)

Section EntryShape.

Variable ownerOf : uint256 -> address.

(** The shape of [removeCustomToolPoliciesForDelegatees],
    [enableCustomToolPoliciesForDelegatees] and
    [disableCustomToolPoliciesForDelegatees]. *)
Definition batch_entry (msg_sender : address) (pkpTokenId : uint256)
    (toolIpfsCids : list string) (delegatees : list address)
    (helper : string -> address -> M unit) (ev : Event) : M unit :=
  onlyPKPOwner ownerOf msg_sender pkpTokenId (
    if negb (length toolIpfsCids =? length delegatees)%nat
    then revert ArrayLengthMismatch
    else
      for_range 0 (length toolIpfsCids)
        (each_delegatee toolIpfsCids delegatees helper) >>
      emit ev).

(** The iteration of the set loop, around any helper. *)
Definition set_each_with (toolIpfsCids : list string)
    (delegatees : list address) (policyIpfsCids : list string)
    (helper : string -> address -> string -> M unit) (i : nat) : M unit :=
  let* delegatee := array_get delegatees i in
  if delegatee =? 0 then revert InvalidDelegatee
  else
    let* toolIpfsCid := array_get toolIpfsCids i in
    let* policyIpfsCid := array_get policyIpfsCids i in
    helper toolIpfsCid delegatee policyIpfsCid.

(** The shape of [setCustomToolPoliciesForDelegatees]. *)
Definition set_entry (msg_sender : address) (pkpTokenId : uint256)
    (toolIpfsCids : list string) (delegatees : list address)
    (policyIpfsCids : list string)
    (helper : string -> address -> string -> M unit) (ev : Event) : M unit :=
  onlyPKPOwner ownerOf msg_sender pkpTokenId (
    if negb (length toolIpfsCids =? length delegatees)%nat
       || negb (length delegatees =? length policyIpfsCids)%nat
    then revert ArrayLengthMismatch
    else
      for_range 0 (length toolIpfsCids)
        (set_each_with toolIpfsCids delegatees policyIpfsCids helper) >>
      emit ev).

End EntryShape.

(** ** Parameter validation of the signing tool

    [packages/fss-tool-signing-simple/src/lib/agent-tool.ts]: the schema
    of the three parameters and the type guard built on it. A JavaScript
    string is the list of its UTF-16 code units. *)

Abbreviation jsstring := (list Z) (only parsing).

(** The code units of an ASCII literal of the source. *)
Fixpoint js (s : string) : jsstring :=
  match s with
  | EmptyString => []
  | String a s' => Z.of_N (Ascii.N_of_ascii a) :: js s'
  end.

(** What [String.prototype.trim] strips: the white space and line
    terminator code points of ECMAScript (tab, vertical tab, form feed,
    space, no-break space, the byte order mark, the other space
    separators; line feed, carriage return, line and paragraph
    separator). *)
Definition is_js_whitespace (c : Z) : bool :=
  bool_decide
    (c ∈ [0x0009; 0x000A; 0x000B; 0x000C; 0x000D; 0x0020; 0x00A0; 0x1680;
          0x2000; 0x2001; 0x2002; 0x2003; 0x2004; 0x2005; 0x2006; 0x2007;
          0x2008; 0x2009; 0x200A; 0x2028; 0x2029; 0x202F; 0x205F; 0x3000;
          0xFEFF]).

Fixpoint trimStart (val : jsstring) : jsstring :=
  match val with
  | [] => []
  | c :: rest => if is_js_whitespace c then trimStart rest else val
  end.

Definition trimEnd (val : jsstring) : jsstring :=
  reverse (trimStart (reverse val)).

(** [val.trim()] *)
Definition trim (val : jsstring) : jsstring := trimEnd (trimStart val).

(** [\d] without the unicode flag: the ten ASCII digits. *)
Definition is_digit (c : Z) : bool := (0x30 <=? c) && (c <=? 0x39).

(** [/^\d+$/.test(val)]: one digit or more, from the start of the input
    to its end. *)
Definition digits_test (val : jsstring) : bool :=
  match val with
  | [] => false
  | _ :: _ => forallb is_digit val
  end.

(** [val.startsWith(prefix)] *)
Fixpoint startsWith (val prefix : jsstring) : bool :=
  match prefix, val with
  | [], _ => true
  | _ :: _, [] => false
  | p :: prefix', c :: val' => (c =? p) && startsWith val' prefix'
  end.

(** The values [params: unknown] can take, as far as the schema tells
    them apart, for data as a caller passes it (JSON values and
    [undefined]; functions and class instances are left out): a string,
    a plain object with its properties, or anything else ([undefined],
    [null], numbers, booleans, arrays). *)
#[warnings="-register-all"]
Inductive JsValue :=
| JsString (val : jsstring)
| JsObject (props : gmap string JsValue)
| JsOther.

(** [data[key]]: a property that is absent reads [undefined]. *)
Definition get_property (props : gmap string JsValue) (key : string) : JsValue :=
  default JsOther (props !! key).

Section SigningSimpleSchema.

(** The check behind zod's [.url()], left to the platform's URL parser. *)
Variable is_url : jsstring -> bool.

(** [z.string().min(1, ...).refine((val) => val.trim().length > 0, ...)] *)
Definition message_schema (v : JsValue) : bool :=
  match v with
  | JsString val => (1 <=? length val)%nat && (0 <? length (trim val))%nat
  | _ => false
  end.

(** [z.string().min(1, ...).refine((val) => val.trim().length > 0 &&
    /^\d+$/.test(val), ...)] *)
Definition chainId_schema (v : JsValue) : bool :=
  match v with
  | JsString val =>
      (1 <=? length val)%nat
      && ((0 <? length (trim val))%nat && digits_test val)
  | _ => false
  end.

(** [z.string().min(1, ...).url(...).refine((val) =>
    val.startsWith('http://') || val.startsWith('https://'), ...)] *)
Definition rpcUrl_schema (v : JsValue) : bool :=
  match v with
  | JsString val =>
      (1 <=? length val)%nat && is_url val
      && (startsWith val (js "http://") || startsWith val (js "https://"))
  | _ => false
  end.

(** [SigningSimpleLitActionSchema.parse(params)] goes through (it throws
    otherwise): [params] is an object and each of the three properties
    passes its schema. *)
Definition SigningSimpleLitActionSchema (params : JsValue) : bool :=
  match params with
  | JsObject props =>
      message_schema (get_property props "message")
      && chainId_schema (get_property props "chainId")
      && rpcUrl_schema (get_property props "rpcUrl")
  | _ => false
  end.

(** The type guard: [true] when the parse returns, [false] when it
    throws. *)
Definition isValidSigningSimpleParameters (params : JsValue) : bool :=
  if SigningSimpleLitActionSchema params then true else false.

End SigningSimpleSchema.

(** ** A sample deployment

    The parameters of the facet instantiated for the worked examples: the
    identifier read as a base-256 numeral (with a leading one), reduced to
    256 bits, stands in for the hash, and every PKP is owned by address
    [0xA11CE]. *)

Fixpoint string_code (s : string) : Z :=
  match s with
  | EmptyString => 1
  | String a s' => Z.of_N (Ascii.N_of_ascii a) + 256 * string_code s'
  end.

Definition sample_hash (s : string) : bytes32 := string_code s mod 2 ^ 256.

Definition sample_owner : address := 0xA11CE.
Definition sample_ownerOf (pkpTokenId : uint256) : address := sample_owner.

Definition alice : address := 0xABC.
Definition bob : address := 0xB0B.

(** PKP 1 with the tool [cidA] registered (and not enabled), no policy. *)
Definition registered_only : Layout :=
  mkLayout
    {[ 1 := mkPKPData {[ sample_hash "cidA" ]}
              {[ sample_hash "cidA" := mkToolInfo false ∅ ∅ ]} ]}
    ∅.

(** As above, with blanket policy [polA] (enabled) on [cidA] and custom
    policy [polB] for [alice], enabled or not. *)
Definition with_policies (customEnabled : bool) : Layout :=
  mkLayout
    {[ 1 := mkPKPData {[ sample_hash "cidA" ]}
              {[ sample_hash "cidA" :=
                   mkToolInfo true
                     {[ 0 := mkPolicy true (sample_hash "polA") ]}
                     {[ alice := mkPolicy customEnabled (sample_hash "polB") ]} ]} ]}
    {[ sample_hash "polA" := "polA"%string; sample_hash "polB" := "polB"%string ]}.

(** As [registered_only], with a custom policy stored under the zero
    address. *)
Definition zero_slot_layout : Layout :=
  mkLayout
    {[ 1 := mkPKPData {[ sample_hash "cidA" ]}
              {[ sample_hash "cidA" :=
                   mkToolInfo true ∅
                     {[ 0 := mkPolicy true (sample_hash "polB") ]} ]} ]}
    {[ sample_hash "polB" := "polB"%string ]}.

(** A world with an empty log. *)
Definition fresh (l : Layout) : World := mkWorld l [].

(** The entry points of the sample deployment. *)
Definition sample_set :=
  setCustomToolPoliciesForDelegatees sample_hash sample_hash sample_ownerOf.
Definition sample_remove :=
  removeCustomToolPoliciesForDelegatees sample_hash sample_ownerOf.
Definition sample_enable :=
  enableCustomToolPoliciesForDelegatees sample_hash sample_ownerOf.
Definition sample_disable :=
  disableCustomToolPoliciesForDelegatees sample_hash sample_ownerOf.

(** A URL check for the samples: everything passes. *)
Definition any_url (val : jsstring) : bool := true.

(** Parameters as a caller of the signing tool would send them. *)
Definition signing_params (message chainId rpcUrl : string) : JsValue :=
  JsObject {[ "message"%string := JsString (js message);
              "chainId"%string := JsString (js chainId);
              "rpcUrl"%string := JsString (js rpcUrl) ]}.

(** ** Resolution of the effective policy *)

Section Resolution.

Variable _hashToolCid : string -> bytes32.

Implicit Types (l : Layout) (pkpTokenId delegatee msg_sender : Z)
  (toolIpfsCid : string).

(** The lookup gets past the existence check exactly when the hash of
    the tool identifier is in the PKP's tool set. *)
Lemma getEffective_registered msg_sender l pkpTokenId toolIpfsCid delegatee :
  _hashToolCid toolIpfsCid ∈ toolCids (pkpStore_at l pkpTokenId) ->
  getEffectiveToolPolicyForDelegatee _hashToolCid msg_sender l pkpTokenId
    toolIpfsCid delegatee =
  let tool := toolMap_at (pkpStore_at l pkpTokenId) (_hashToolCid toolIpfsCid) in
  let delegateePolicy := customPolicy_at tool delegatee in
  if negb (policyIpfsCidHash delegateePolicy =? 0) && enabled delegateePolicy then
    Ok (originalCid_at l (policyIpfsCidHash delegateePolicy), true)
  else
    let blanket := blanketPolicy_at tool 0 in
    if negb (policyIpfsCidHash blanket =? 0) && enabled blanket then
      Ok (originalCid_at l (policyIpfsCidHash blanket), false)
    else Ok (EmptyString, false).
Proof.
  intros Hin. unfold getEffectiveToolPolicyForDelegatee.
  rewrite bool_decide_eq_true_2 by exact Hin. reflexivity.
Qed.

Lemma getCustom_registered msg_sender l pkpTokenId toolIpfsCid delegatee :
  _hashToolCid toolIpfsCid ∈ toolCids (pkpStore_at l pkpTokenId) ->
  getCustomToolPolicyForDelegatee _hashToolCid msg_sender l pkpTokenId
    toolIpfsCid delegatee =
  let policy := customPolicy_of l pkpTokenId (_hashToolCid toolIpfsCid) delegatee in
  if negb (policyIpfsCidHash policy =? 0) then
    Ok (originalCid_at l (policyIpfsCidHash policy), enabled policy)
  else Ok (EmptyString, false).
Proof.
  intros Hin. unfold getCustomToolPolicyForDelegatee.
  rewrite bool_decide_eq_true_2 by exact Hin. reflexivity.
Qed.

Lemma qualifies_true (p : Policy) :
  policyIpfsCidHash p ≠ 0 -> enabled p = true ->
  negb (policyIpfsCidHash p =? 0) && enabled p = true.
Proof.
  intros Hh He. rewrite He, andb_true_r.
  apply negb_true_iff, Z.eqb_neq, Hh.
Qed.

Lemma qualifies_false (p : Policy) :
  policyIpfsCidHash p = 0 \/ enabled p = false ->
  negb (policyIpfsCidHash p =? 0) && enabled p = false.
Proof.
  intros [Hh | He].
  - rewrite Hh. reflexivity.
  - rewrite He. apply andb_false_r.
Qed.

(** C1: on a registered tool, a custom policy for the delegatee with a
    non-zero hash and the enabled flag set is what the resolution
    returns, through the reverse index and flagged delegatee-specific,
    whatever the blanket policy of the tool is. *)
Theorem custom_policy_takes_priority msg_sender l pkpTokenId toolIpfsCid delegatee :
  let custom :=
    customPolicy_of l pkpTokenId (_hashToolCid toolIpfsCid) delegatee in
  _hashToolCid toolIpfsCid ∈ toolCids (pkpStore_at l pkpTokenId) ->
  policyIpfsCidHash custom ≠ 0 ->
  enabled custom = true ->
  getEffectiveToolPolicyForDelegatee _hashToolCid msg_sender l pkpTokenId
    toolIpfsCid delegatee =
  Ok (originalCid_at l (policyIpfsCidHash custom), true).
Proof.
  intros custom Hin Hh He.
  rewrite getEffective_registered by exact Hin. cbv zeta.
  fold (customPolicy_of l pkpTokenId (_hashToolCid toolIpfsCid) delegatee).
  fold custom. now rewrite qualifies_true.
Qed.

(** C2: on a registered tool, when the custom policy of the delegatee
    exists but is disabled and the blanket policy has a non-zero hash
    and is enabled, the resolution returns the blanket policy, flagged
    as not delegatee-specific. *)
Theorem disabled_custom_falls_back_to_blanket msg_sender l pkpTokenId
    toolIpfsCid delegatee :
  let tool := toolMap_at (pkpStore_at l pkpTokenId) (_hashToolCid toolIpfsCid) in
  let custom := customPolicy_at tool delegatee in
  let blanket := blanketPolicy_at tool 0 in
  _hashToolCid toolIpfsCid ∈ toolCids (pkpStore_at l pkpTokenId) ->
  policyIpfsCidHash custom ≠ 0 ->
  enabled custom = false ->
  policyIpfsCidHash blanket ≠ 0 ->
  enabled blanket = true ->
  getEffectiveToolPolicyForDelegatee _hashToolCid msg_sender l pkpTokenId
    toolIpfsCid delegatee =
  Ok (originalCid_at l (policyIpfsCidHash blanket), false).
Proof.
  intros tool custom blanket Hin _ He Hbh Hbe.
  rewrite getEffective_registered by exact Hin. cbv zeta.
  fold tool. fold custom. fold blanket.
  rewrite (qualifies_false custom) by (right; exact He).
  now rewrite qualifies_true.
Qed.

(** C9: on a registered tool, when neither the custom policy of the
    delegatee nor the blanket policy has both a non-zero hash and the
    enabled flag, the resolution returns the empty identifier, flagged
    as not delegatee-specific. *)
Theorem no_qualifying_policy_resolves_empty msg_sender l pkpTokenId
    toolIpfsCid delegatee :
  let tool := toolMap_at (pkpStore_at l pkpTokenId) (_hashToolCid toolIpfsCid) in
  let custom := customPolicy_at tool delegatee in
  let blanket := blanketPolicy_at tool 0 in
  _hashToolCid toolIpfsCid ∈ toolCids (pkpStore_at l pkpTokenId) ->
  ¬ (policyIpfsCidHash custom ≠ 0 /\ enabled custom = true) ->
  ¬ (policyIpfsCidHash blanket ≠ 0 /\ enabled blanket = true) ->
  getEffectiveToolPolicyForDelegatee _hashToolCid msg_sender l pkpTokenId
    toolIpfsCid delegatee =
  Ok (EmptyString, false).
Proof.
  intros tool custom blanket Hin Hc Hb.
  rewrite getEffective_registered by exact Hin. cbv zeta.
  fold tool. fold custom. fold blanket.
  assert (Hq : forall p : Policy,
             ¬ (policyIpfsCidHash p ≠ 0 /\ enabled p = true) ->
             policyIpfsCidHash p = 0 \/ enabled p = false).
  { intros p Hp. destruct (Z.eq_dec (policyIpfsCidHash p) 0) as [->|Hne].
    - now left.
    - right. destruct (enabled p); [exfalso; apply Hp; now split | reflexivity]. }
  rewrite (qualifies_false custom) by (apply Hq, Hc).
  now rewrite (qualifies_false blanket) by (apply Hq, Hb).
Qed.

(** C4: the resolution fails with [ToolNotFound] when the tool is not in
    the PKP's tool set, for every delegatee; when the tool is in the
    set it returns a result, whatever the tool's own enabled flag. *)
Theorem tool_existence_gates_resolution msg_sender l pkpTokenId toolIpfsCid
    delegatee :
  (_hashToolCid toolIpfsCid ∉ toolCids (pkpStore_at l pkpTokenId) ->
   getEffectiveToolPolicyForDelegatee _hashToolCid msg_sender l pkpTokenId
     toolIpfsCid delegatee = Revert (ToolNotFound toolIpfsCid))
  /\
  (_hashToolCid toolIpfsCid ∈ toolCids (pkpStore_at l pkpTokenId) ->
   exists r,
     getEffectiveToolPolicyForDelegatee _hashToolCid msg_sender l pkpTokenId
       toolIpfsCid delegatee = Ok r).
Proof.
  split; intros Hin.
  - unfold getEffectiveToolPolicyForDelegatee.
    now rewrite bool_decide_eq_false_2 by exact Hin.
  - rewrite getEffective_registered by exact Hin. cbv zeta.
    destruct (_ && _); [eauto |]. destruct (_ && _); eauto.
Qed.

(** C10: neither read rejects the zero address as delegatee; on a
    registered tool the reads consult the custom policy slot keyed by
    the zero address as they do for any other delegatee. *)
Theorem reads_accept_zero_delegatee msg_sender l pkpTokenId toolIpfsCid :
  let slot := customPolicy_of l pkpTokenId (_hashToolCid toolIpfsCid) 0 in
  getEffectiveToolPolicyForDelegatee _hashToolCid msg_sender l pkpTokenId
    toolIpfsCid 0 ≠ Revert InvalidDelegatee
  /\
  getCustomToolPolicyForDelegatee _hashToolCid msg_sender l pkpTokenId
    toolIpfsCid 0 ≠ Revert InvalidDelegatee
  /\
  (_hashToolCid toolIpfsCid ∈ toolCids (pkpStore_at l pkpTokenId) ->
   (exists r,
      getEffectiveToolPolicyForDelegatee _hashToolCid msg_sender l pkpTokenId
        toolIpfsCid 0 = Ok r) /\
   getCustomToolPolicyForDelegatee _hashToolCid msg_sender l pkpTokenId
     toolIpfsCid 0 =
   (if policyIpfsCidHash slot =? 0 then Ok (EmptyString, false)
    else Ok (originalCid_at l (policyIpfsCidHash slot), enabled slot)) /\
   (policyIpfsCidHash slot ≠ 0 -> enabled slot = true ->
    getEffectiveToolPolicyForDelegatee _hashToolCid msg_sender l pkpTokenId
      toolIpfsCid 0 = Ok (originalCid_at l (policyIpfsCidHash slot), true))).
Proof.
  intros slot. split; [| split].
  - unfold getEffectiveToolPolicyForDelegatee.
    destruct (negb _); [discriminate |].
    destruct (_ && _); [discriminate |]. destruct (_ && _); discriminate.
  - unfold getCustomToolPolicyForDelegatee.
    destruct (negb _); [discriminate |]. destruct (negb _); discriminate.
  - intros Hin. split; [| split].
    + rewrite getEffective_registered by exact Hin. cbv zeta.
      destruct (_ && _); [eauto |]. destruct (_ && _); eauto.
    + rewrite getCustom_registered by exact Hin. cbv zeta. fold slot.
      now destruct (policyIpfsCidHash slot =? 0).
    + intros Hh He. rewrite getEffective_registered by exact Hin. cbv zeta.
      fold (customPolicy_of l pkpTokenId (_hashToolCid toolIpfsCid) 0).
      fold slot. now rewrite qualifies_true.
Qed.

End Resolution.

(** Worked instances of the resolution on the sample deployment. *)

Lemma custom_policy_takes_priority_witness :
  getEffectiveToolPolicyForDelegatee sample_hash bob (with_policies true) 1
    "cidA" alice = Ok ("polB"%string, true).
Proof.
  apply (custom_policy_takes_priority sample_hash bob (with_policies true) 1
           "cidA" alice).
  - vm_compute. reflexivity.
  - vm_compute. discriminate.
  - reflexivity.
Defined.

Lemma disabled_custom_falls_back_to_blanket_witness :
  getEffectiveToolPolicyForDelegatee sample_hash bob (with_policies false) 1
    "cidA" alice = Ok ("polA"%string, false).
Proof.
  apply (disabled_custom_falls_back_to_blanket sample_hash bob
           (with_policies false) 1 "cidA" alice).
  - vm_compute. reflexivity.
  - vm_compute. discriminate.
  - reflexivity.
  - vm_compute. discriminate.
  - reflexivity.
Defined.

Lemma no_qualifying_policy_resolves_empty_witness :
  getEffectiveToolPolicyForDelegatee sample_hash bob registered_only 1
    "cidA" alice = Ok (EmptyString, false).
Proof.
  apply (no_qualifying_policy_resolves_empty sample_hash bob registered_only 1
           "cidA" alice).
  - vm_compute. reflexivity.
  - intros [H _]. apply H. reflexivity.
  - intros [H _]. apply H. reflexivity.
Defined.

(** An unregistered tool is not found; the registered tool [cidA], whose
    own enabled flag is false, resolves. *)
Lemma tool_existence_gates_resolution_witness :
  getEffectiveToolPolicyForDelegatee sample_hash bob registered_only 1
    "cidB" alice = Revert (ToolNotFound "cidB")
  /\ toolEnabled (toolMap_at (pkpStore_at registered_only 1) (sample_hash "cidA"))
     = false
  /\ exists r,
       getEffectiveToolPolicyForDelegatee sample_hash bob registered_only 1
         "cidA" alice = Ok r.
Proof.
  split; [| split].
  - apply (proj1 (tool_existence_gates_resolution sample_hash bob
                    registered_only 1 "cidB" alice)).
    vm_compute. intros H. discriminate H.
  - reflexivity.
  - apply (proj2 (tool_existence_gates_resolution sample_hash bob
                    registered_only 1 "cidA" alice)).
    vm_compute. reflexivity.
Defined.

(** ** Transactions and loops *)

Lemma external_call_revert {A} (m : M A) (w w' : World) (e : Error) :
  m w = (Revert e, w') -> external_call m w = (Revert e, w).
Proof. unfold external_call. now intros ->. Qed.

Lemma external_call_ok {A} (m : M A) (w w' : World) (a : A) :
  m w = (Ok a, w') -> external_call m w = (Ok a, w').
Proof. unfold external_call. now intros ->. Qed.

Lemma external_call_ok_inv {A} (m : M A) (w w' : World) (a : A) :
  external_call m w = (Ok a, w') -> m w = (Ok a, w').
Proof.
  unfold external_call. destruct (m w) as [[a0 | e] w0]; congruence.
Qed.

Lemma bind_revert {A B} (m : M A) (f : A -> M B) (w w' : World) (e : Error) :
  m w = (Revert e, w') -> bind m f w = (Revert e, w').
Proof. unfold bind. now intros ->. Qed.

Lemma bind_ok {A B} (m : M A) (f : A -> M B) (w w' : World) (a : A) :
  m w = (Ok a, w') -> bind m f w = f a w'.
Proof. unfold bind. now intros ->. Qed.

Lemma array_get_Some {A} (arr : list A) (i : nat) (x : A) (w : World) :
  arr !! i = Some x -> array_get arr i w = (Ok x, w).
Proof. unfold array_get. now intros ->. Qed.

(** A loop reverts as soon as one of its iterations does: if iteration [k]
    reverts in every state that satisfies an invariant which the earlier
    iterations keep, the loop reverts. *)
Lemma for_range_reverts (I : World -> Prop) (body : nat -> M unit) (k : nat) :
  (forall j w w', body j w = (Ok tt, w') -> I w -> I w') ->
  (forall w, I w -> exists e w', body k w = (Revert e, w')) ->
  forall count start w,
    (start <= k < start + count)%nat -> I w ->
    exists e w', for_range start count body w = (Revert e, w').
Proof.
  intros Hkeep Hk. induction count as [| count IH]; intros start w Hrange HI.
  - lia.
  - cbn [for_range]. unfold bind.
    destruct (body start w) as [[[] | e] w1] eqn:Hb; [| eauto].
    destruct (decide (start = k)) as [-> | Hne].
    + destruct (Hk w HI) as (e & w' & He). congruence.
    + apply IH; [lia | eauto].
Qed.

(** The error of the loop is that of the first iteration that fails: if
    the iterations before [k] succeed and iteration [k] reverts with [e],
    so does the loop. *)
Lemma for_range_first_revert (I : World -> Prop) (body : nat -> M unit)
    (k : nat) (e : Error) :
  (forall j w, (j < k)%nat -> I w -> exists w', body j w = (Ok tt, w') /\ I w') ->
  (forall w, I w -> exists w', body k w = (Revert e, w')) ->
  forall count start w,
    (start <= k < start + count)%nat -> I w ->
    exists w', for_range start count body w = (Revert e, w').
Proof.
  intros Hbefore Hk. induction count as [| count IH]; intros start w Hrange HI.
  - lia.
  - cbn [for_range]. destruct (decide (start = k)) as [-> | Hne].
    + destruct (Hk w HI) as (w' & He). exists w'. now apply bind_revert.
    + destruct (Hbefore start w ltac:(lia) HI) as (w1 & Hb & HI1).
      rewrite (bind_ok _ _ _ _ _ Hb). apply IH; [lia | exact HI1].
Qed.

(** A loop that completes ran every iteration to completion. *)
Lemma for_range_ok_inv (body : nat -> M unit) :
  forall count start w w',
    for_range start count body w = (Ok tt, w') ->
    match count with
    | O => w' = w
    | S count' =>
        exists w1, body start w = (Ok tt, w1) /\
                   for_range (S start) count' body w1 = (Ok tt, w')
    end.
Proof.
  intros [| count] start w w' H; cbn [for_range] in H.
  - unfold ret in H. congruence.
  - unfold bind in H. destruct (body start w) as [[[] | e] w1] eqn:Hb.
    + eauto.
    + discriminate.
Qed.

(** ** The access guard and the length check *)

Section Guards.

Variable _hashToolCid : string -> bytes32.
Variable _hashPolicyCid : string -> bytes32.
Variable ownerOf : uint256 -> address.

Abbreviation setCustom := (setCustomToolPoliciesForDelegatees
  _hashToolCid _hashPolicyCid ownerOf).
Abbreviation removeCustom := (removeCustomToolPoliciesForDelegatees
  _hashToolCid ownerOf).
Abbreviation enableCustom := (enableCustomToolPoliciesForDelegatees
  _hashToolCid ownerOf).
Abbreviation disableCustom := (disableCustomToolPoliciesForDelegatees
  _hashToolCid ownerOf).

Lemma onlyPKPOwner_owner {A} (msg_sender pkpTokenId : Z) (body : M A) :
  msg_sender = ownerOf pkpTokenId ->
  onlyPKPOwner ownerOf msg_sender pkpTokenId body = body.
Proof.
  intros H. unfold onlyPKPOwner. now rewrite bool_decide_eq_true_2.
Qed.

Lemma onlyPKPOwner_stranger {A} (msg_sender pkpTokenId : Z) (body : M A)
    (w : World) :
  msg_sender ≠ ownerOf pkpTokenId ->
  onlyPKPOwner ownerOf msg_sender pkpTokenId body w = (Revert NotPKPOwner, w).
Proof.
  intros H. unfold onlyPKPOwner. now rewrite bool_decide_eq_false_2.
Qed.

Lemma guarded_length_mismatch (msg_sender pkpTokenId : Z) (mismatch : bool)
    (rest : M unit) (w : World) :
  mismatch = true ->
  external_call
    (onlyPKPOwner ownerOf msg_sender pkpTokenId
       (if mismatch then revert ArrayLengthMismatch else rest)) w =
  (Revert (entry_error ownerOf msg_sender pkpTokenId), w).
Proof.
  intros ->. unfold entry_error, onlyPKPOwner.
  destruct (bool_decide _); reflexivity.
Qed.

Lemma length_neqb (m n : nat) : m ≠ n -> negb (m =? n)%nat = true.
Proof. intros H. now apply negb_true_iff, Nat.eqb_neq. Qed.

(** C5 (amended): when the input arrays of a batch function do not all
    have the same length, the call of the owner fails with
    [ArrayLengthMismatch], the call of anybody else fails with
    [NotPKPOwner], and in both cases storage and log are those before
    the call. *)
Theorem length_mismatch_aborts msg_sender pkpTokenId
    (toolIpfsCids : list string) (delegatees : list Z)
    (policyIpfsCids : list string) (enablePolicies : bool) (w : World) :
  (¬ (length toolIpfsCids = length delegatees /\
      length delegatees = length policyIpfsCids) ->
   external_call (setCustom msg_sender pkpTokenId toolIpfsCids delegatees
                    policyIpfsCids enablePolicies) w =
   (Revert (entry_error ownerOf msg_sender pkpTokenId), w))
  /\
  (length toolIpfsCids ≠ length delegatees ->
   external_call (removeCustom msg_sender pkpTokenId toolIpfsCids delegatees) w =
   (Revert (entry_error ownerOf msg_sender pkpTokenId), w)
   /\
   external_call (enableCustom msg_sender pkpTokenId toolIpfsCids delegatees) w =
   (Revert (entry_error ownerOf msg_sender pkpTokenId), w)
   /\
   external_call (disableCustom msg_sender pkpTokenId toolIpfsCids delegatees) w =
   (Revert (entry_error ownerOf msg_sender pkpTokenId), w)).
Proof.
  split.
  - intros Hlen. apply guarded_length_mismatch.
    apply orb_true_iff.
    destruct (decide (length toolIpfsCids = length delegatees)) as [H1 | H1].
    + right. apply length_neqb. intros H2. apply Hlen. now split.
    + left. now apply length_neqb.
  - intros Hlen. repeat split; apply guarded_length_mismatch;
      now apply length_neqb.
Qed.

(** C6: a caller that is not the owner of the PKP gets [NotPKPOwner]
    from each of the four batch functions, whatever the arrays hold
    (mismatched lengths and zero delegatees included), and nothing is
    changed; the two read functions never fail with [NotPKPOwner], for
    any caller. *)
Theorem owner_check_runs_first msg_sender pkpTokenId (w : World) :
  (msg_sender ≠ ownerOf pkpTokenId ->
   forall (toolIpfsCids : list string) (delegatees : list Z)
          (policyIpfsCids : list string) (enablePolicies : bool),
     external_call (setCustom msg_sender pkpTokenId toolIpfsCids delegatees
                      policyIpfsCids enablePolicies) w =
     (Revert NotPKPOwner, w)
     /\
     external_call (removeCustom msg_sender pkpTokenId toolIpfsCids delegatees) w =
     (Revert NotPKPOwner, w)
     /\
     external_call (enableCustom msg_sender pkpTokenId toolIpfsCids delegatees) w =
     (Revert NotPKPOwner, w)
     /\
     external_call (disableCustom msg_sender pkpTokenId toolIpfsCids delegatees) w =
     (Revert NotPKPOwner, w))
  /\
  (forall (toolIpfsCid : string) (delegatee : Z),
     getEffectiveToolPolicyForDelegatee _hashToolCid msg_sender (storage w)
       pkpTokenId toolIpfsCid delegatee ≠ Revert NotPKPOwner
     /\
     getCustomToolPolicyForDelegatee _hashToolCid msg_sender (storage w)
       pkpTokenId toolIpfsCid delegatee ≠ Revert NotPKPOwner).
Proof.
  split.
  - intros Hne tools dels pols en.
    repeat split;
      (eapply external_call_revert; now apply onlyPKPOwner_stranger).
  - intros tool d. split.
    + unfold getEffectiveToolPolicyForDelegatee.
      destruct (negb _); [discriminate |].
      destruct (_ && _); [discriminate |]. destruct (_ && _); discriminate.
    + unfold getCustomToolPolicyForDelegatee.
      destruct (negb _); [discriminate |]. destruct (negb _); discriminate.
Qed.

End Guards.

(** ** What the storage writes change *)

Lemma mapping_get_insert `{Countable K} {V : Type} (zero v : V)
    (m : gmap K V) (k k' : K) :
  mapping_get zero (<[k := v]> m) k' =
  if decide (k = k') then v else mapping_get zero m k'.
Proof.
  unfold mapping_get. rewrite lookup_insert.
  destruct (decide (k = k')); reflexivity.
Qed.

Lemma pkpStore_at_write_customPolicy (l : Layout) (pkpTokenId toolCidHash delegatee : Z)
    (p : Policy) (pkpTokenId' : Z) :
  pkpStore_at (write_customPolicy l pkpTokenId toolCidHash delegatee p) pkpTokenId' =
  if decide (pkpTokenId = pkpTokenId') then
    mkPKPData (toolCids (pkpStore_at l pkpTokenId))
      (<[toolCidHash :=
           mkToolInfo
             (toolEnabled (toolMap_at (pkpStore_at l pkpTokenId) toolCidHash))
             (blanketPolicy (toolMap_at (pkpStore_at l pkpTokenId) toolCidHash))
             (<[delegatee := p]>
                (delegateeCustomPolicies
                   (toolMap_at (pkpStore_at l pkpTokenId) toolCidHash)))]>
         (toolMap (pkpStore_at l pkpTokenId)))
  else pkpStore_at l pkpTokenId'.
Proof.
  unfold pkpStore_at at 1. unfold write_customPolicy. cbn [pkpStore].
  apply mapping_get_insert.
Qed.

Lemma toolCids_write_customPolicy (l : Layout) (pkpTokenId toolCidHash delegatee : Z)
    (p : Policy) (pkpTokenId' : Z) :
  toolCids (pkpStore_at (write_customPolicy l pkpTokenId toolCidHash delegatee p)
              pkpTokenId') =
  toolCids (pkpStore_at l pkpTokenId').
Proof.
  rewrite pkpStore_at_write_customPolicy.
  destruct (decide (pkpTokenId = pkpTokenId')) as [-> |]; reflexivity.
Qed.

Lemma customPolicy_of_write_customPolicy (l : Layout)
    (pkpTokenId toolCidHash delegatee : Z) (p : Policy)
    (pkpTokenId' toolCidHash' delegatee' : Z) :
  customPolicy_of (write_customPolicy l pkpTokenId toolCidHash delegatee p)
    pkpTokenId' toolCidHash' delegatee' =
  if decide (pkpTokenId = pkpTokenId' /\ toolCidHash = toolCidHash'
             /\ delegatee = delegatee')
  then p
  else customPolicy_of l pkpTokenId' toolCidHash' delegatee'.
Proof.
  unfold customPolicy_of. rewrite pkpStore_at_write_customPolicy.
  destruct (decide (pkpTokenId = pkpTokenId')) as [<- | Hp].
  - unfold toolMap_at at 1. cbn [toolMap]. rewrite mapping_get_insert.
    destruct (decide (toolCidHash = toolCidHash')) as [<- | Ht].
    + unfold customPolicy_at at 1. cbn [delegateeCustomPolicies].
      rewrite mapping_get_insert.
      destruct (decide (delegatee = delegatee')) as [<- | Hd].
      * rewrite decide_True by done. reflexivity.
      * rewrite decide_False by (intros (_ & _ & ?); done). reflexivity.
    + rewrite decide_False by (intros (_ & ? & _); done). reflexivity.
  - rewrite decide_False by (intros (? & _ & _); done). reflexivity.
Qed.

Lemma originalCid_at_write_customPolicy (l : Layout)
    (pkpTokenId toolCidHash delegatee : Z) (p : Policy) (cidHash : Z) :
  originalCid_at (write_customPolicy l pkpTokenId toolCidHash delegatee p) cidHash =
  originalCid_at l cidHash.
Proof. reflexivity. Qed.

Lemma originalCid_at_write_originalCid (l : Layout) (cidHash : Z) (cid : string)
    (cidHash' : Z) :
  originalCid_at (write_originalCid l cidHash cid) cidHash' =
  if decide (cidHash = cidHash') then cid else originalCid_at l cidHash'.
Proof.
  unfold originalCid_at, write_originalCid. cbn [hashedPolicyCidToOriginalCid].
  apply mapping_get_insert.
Qed.

Lemma pkpStore_at_write_originalCid (l : Layout) (cidHash : Z) (cid : string)
    (pkpTokenId : Z) :
  pkpStore_at (write_originalCid l cidHash cid) pkpTokenId = pkpStore_at l pkpTokenId.
Proof. reflexivity. Qed.

Lemma customPolicy_of_write_originalCid (l : Layout) (cidHash : Z) (cid : string)
    (pkpTokenId toolCidHash delegatee : Z) :
  customPolicy_of (write_originalCid l cidHash cid) pkpTokenId toolCidHash delegatee =
  customPolicy_of l pkpTokenId toolCidHash delegatee.
Proof. reflexivity. Qed.

(** Among the elements up to one that fails there is a first one. *)
Lemma first_failure_exists (err : nat -> option Error) :
  forall k0, err k0 ≠ None ->
    exists k e, (k <= k0)%nat /\ (forall j, (j < k)%nat -> err j = None)
                /\ err k = Some e.
Proof.
  assert (Hscan : forall n,
             (forall j, (j < n)%nat -> err j = None)
             \/ exists k e, (k < n)%nat
                            /\ (forall j, (j < k)%nat -> err j = None)
                            /\ err k = Some e).
  { induction n as [| n [Hnone | (k & e & Hk & Hprefix & He)]].
    - left. intros j Hj. lia.
    - destruct (err n) as [e |] eqn:He.
      + right. exists n, e. split; [lia | auto].
      + left. intros j Hj.
        destruct (decide (j = n)) as [-> | Hne]; [exact He | apply Hnone; lia].
    - right. exists k, e. split; [lia | auto]. }
  intros k0 Hfail. destruct (Hscan (S k0)) as [Hnone | (k & e & Hk & H)].
  - exfalso. apply Hfail, Hnone. lia.
  - exists k, e. split; [lia | exact H].
Qed.

(** ** The set batch *)

Section SetBatch.

Variable _hashToolCid : string -> bytes32.
Variable _hashPolicyCid : string -> bytes32.
Variable ownerOf : uint256 -> address.

Variables (pkpTokenId : Z) (toolIpfsCids : list string) (delegatees : list Z)
  (policyIpfsCids : list string) (enablePolicies : bool).

Abbreviation set_iteration := (set_each _hashToolCid _hashPolicyCid pkpTokenId
  toolIpfsCids delegatees policyIpfsCids enablePolicies).
Abbreviation set_call := (fun msg_sender =>
  setCustomToolPoliciesForDelegatees _hashToolCid _hashPolicyCid ownerOf
    msg_sender pkpTokenId toolIpfsCids delegatees policyIpfsCids
    enablePolicies).

Abbreviation set_written := (set_written _hashToolCid _hashPolicyCid
  pkpTokenId enablePolicies).

Lemma set_each_zero (k : nat) (w : World) :
  delegatees !! k = Some 0 ->
  set_iteration k w = (Revert InvalidDelegatee, w).
Proof.
  intros Hk. unfold set_each, bind, array_get. rewrite Hk. reflexivity.
Qed.

Lemma set_each_ok_inv (j : nat) (w w' : World) :
  set_iteration j w = (Ok tt, w') ->
  exists t d p,
    toolIpfsCids !! j = Some t /\ delegatees !! j = Some d
    /\ policyIpfsCids !! j = Some p
    /\ w' = mkWorld (set_written (storage w) t d p) (logs w).
Proof.
  unfold set_each, bind, array_get.
  destruct (delegatees !! j) as [d |]; [| discriminate].
  unfold ret at 1. destruct (d =? 0); [discriminate |].
  destruct (toolIpfsCids !! j) as [t |]; [| discriminate].
  unfold ret at 1. destruct (policyIpfsCids !! j) as [p |]; [| discriminate].
  unfold ret at 1. unfold _setToolPolicy.
  destruct (is_empty_string t); [discriminate |].
  destruct (is_empty_string p); [discriminate |].
  destruct (negb _); [discriminate |].
  unfold modify_storage. intros [= <-]. exists t, d, p. auto.
Qed.

Lemma set_each_passes (j : nat) (w : World) :
  set_element_passes _hashToolCid (storage w) pkpTokenId toolIpfsCids
    delegatees policyIpfsCids j = true ->
  exists t d p,
    set_iteration j w = (Ok tt, mkWorld (set_written (storage w) t d p) (logs w)).
Proof.
  unfold set_element_passes, set_each, bind, array_get.
  destruct (toolIpfsCids !! j) as [t |]; [| discriminate].
  destruct (delegatees !! j) as [d |]; [| discriminate].
  destruct (policyIpfsCids !! j) as [p |]; [| discriminate].
  intros H. apply andb_true_iff in H as [H Hreg].
  apply andb_true_iff in H as [H Hp]. apply andb_true_iff in H as [Hd Ht].
  apply negb_true_iff in Hd, Ht, Hp.
  unfold ret at 1. rewrite Hd. unfold ret at 1. unfold ret at 1.
  unfold _setToolPolicy. rewrite Ht, Hp, Hreg. cbn [negb].
  exists t, d, p. reflexivity.
Qed.

(** An iteration of the set loop leaves every tool set as it is. *)
Lemma toolCids_set_written (l : Layout) (t : string) (d : Z) (p : string)
    (pkpTokenId' : Z) :
  toolCids (pkpStore_at (set_written l t d p) pkpTokenId') =
  toolCids (pkpStore_at l pkpTokenId').
Proof. unfold set_written. now rewrite toolCids_write_customPolicy. Qed.

Lemma set_element_passes_same_tools (l l' : Layout) (j : nat) :
  (forall pkpTokenId', toolCids (pkpStore_at l' pkpTokenId') =
                       toolCids (pkpStore_at l pkpTokenId')) ->
  set_element_passes _hashToolCid l' pkpTokenId toolIpfsCids delegatees
    policyIpfsCids j =
  set_element_passes _hashToolCid l pkpTokenId toolIpfsCids delegatees
    policyIpfsCids j.
Proof.
  intros Hsame. unfold set_element_passes, tool_registered.
  now rewrite Hsame.
Qed.

(** What an iteration of the set loop does is decided by the error of
    its element. *)
Lemma set_each_outcome (j : nat) (w : World) :
  match set_element_error _hashToolCid (storage w) pkpTokenId toolIpfsCids
          delegatees policyIpfsCids j with
  | Some e => set_iteration j w = (Revert e, w)
  | None => exists t d p,
      set_iteration j w = (Ok tt, mkWorld (set_written (storage w) t d p) (logs w))
  end.
Proof.
  unfold set_element_error, set_each, bind, array_get, ret, revert.
  destruct (delegatees !! j) as [d |]; [| reflexivity].
  destruct (d =? 0); [reflexivity |].
  destruct (toolIpfsCids !! j) as [t |]; [| reflexivity].
  destruct (policyIpfsCids !! j) as [p |]; [| reflexivity].
  unfold _setToolPolicy, revert.
  destruct (is_empty_string t); [reflexivity |].
  destruct (is_empty_string p); [reflexivity |].
  destruct (negb _); [reflexivity |].
  exists t, d, p. reflexivity.
Qed.

Lemma set_element_error_same_tools (l l' : Layout) (j : nat) :
  (forall pkpTokenId', toolCids (pkpStore_at l' pkpTokenId') =
                       toolCids (pkpStore_at l pkpTokenId')) ->
  set_element_error _hashToolCid l' pkpTokenId toolIpfsCids delegatees
    policyIpfsCids j =
  set_element_error _hashToolCid l pkpTokenId toolIpfsCids delegatees
    policyIpfsCids j.
Proof.
  intros Hsame. unfold set_element_error, tool_registered.
  now rewrite Hsame.
Qed.

Lemma set_element_passes_no_error (l : Layout) (j : nat) :
  set_element_passes _hashToolCid l pkpTokenId toolIpfsCids delegatees
    policyIpfsCids j = true ->
  set_element_error _hashToolCid l pkpTokenId toolIpfsCids delegatees
    policyIpfsCids j = None.
Proof.
  unfold set_element_passes, set_element_error.
  destruct (toolIpfsCids !! j) as [t |]; [| discriminate].
  destruct (delegatees !! j) as [d |]; [| discriminate].
  destruct (policyIpfsCids !! j) as [p |]; [| discriminate].
  intros H. apply andb_true_iff in H as [H Hreg].
  apply andb_true_iff in H as [H Hp]. apply andb_true_iff in H as [Hd Ht].
  apply negb_true_iff in Hd, Ht, Hp. now rewrite Hd, Ht, Hp, Hreg.
Qed.

(** The errors an element of a set batch can fail with. *)
Lemma set_element_error_kinds (l : Layout) (j : nat) (e : Error) :
  (j < length toolIpfsCids)%nat -> (j < length delegatees)%nat ->
  (j < length policyIpfsCids)%nat ->
  set_element_error _hashToolCid l pkpTokenId toolIpfsCids delegatees
    policyIpfsCids j = Some e ->
  e = InvalidDelegatee \/ e = EmptyIPFSCID \/ e = EmptyPolicyIPFSCID
  \/ exists t, toolIpfsCids !! j = Some t /\ e = ToolNotFound t.
Proof.
  intros Ht Hd Hp.
  apply lookup_lt_is_Some_2 in Ht as [t Ht], Hd as [d Hd], Hp as [p Hp].
  unfold set_element_error. rewrite Ht, Hd, Hp.
  destruct (d =? 0); [intros [= <-]; auto |].
  destruct (is_empty_string t); [intros [= <-]; auto |].
  destruct (is_empty_string p); [intros [= <-]; auto |].
  destruct (negb _); [intros [= <-] | discriminate].
  right. right. right. eauto.
Qed.

(** The owner's set batch with arrays of equal length fails with the
    error of its first failing element. *)
Lemma set_call_first_error (msg_sender : Z) (w : World) (k : nat) (e : Error) :
  msg_sender = ownerOf pkpTokenId ->
  length toolIpfsCids = length delegatees ->
  length delegatees = length policyIpfsCids ->
  (k < length toolIpfsCids)%nat ->
  (forall j, (j < k)%nat ->
     set_element_error _hashToolCid (storage w) pkpTokenId toolIpfsCids
       delegatees policyIpfsCids j = None) ->
  set_element_error _hashToolCid (storage w) pkpTokenId toolIpfsCids
    delegatees policyIpfsCids k = Some e ->
  external_call (set_call msg_sender) w = (Revert e, w).
Proof.
  intros Howner H1 H2 Hk Hprefix He.
  unfold setCustomToolPoliciesForDelegatees.
  rewrite onlyPKPOwner_owner by exact Howner.
  rewrite H1, H2, !Nat.eqb_refl. cbn [negb orb].
  destruct (for_range_first_revert
              (fun w' => forall pkpTokenId',
                 toolCids (pkpStore_at (storage w') pkpTokenId') =
                 toolCids (pkpStore_at (storage w) pkpTokenId'))
              set_iteration k e) with
    (count := length policyIpfsCids) (start := 0%nat) (w := w)
    as (w' & Hloop); [| | lia | done |].
  - intros j w0 Hj Hsame. pose proof (set_each_outcome j w0) as Hout.
    rewrite (set_element_error_same_tools (storage w)) in Hout by exact Hsame.
    rewrite (Hprefix j Hj) in Hout. destruct Hout as (t & d & p & Hok).
    eexists. split; [exact Hok |]. intros pkp'. cbn [storage].
    now rewrite toolCids_set_written.
  - intros w0 Hsame. pose proof (set_each_outcome k w0) as Hout.
    rewrite (set_element_error_same_tools (storage w)) in Hout by exact Hsame.
    rewrite He in Hout. eauto.
  - eapply external_call_revert, bind_revert, Hloop.
Qed.

(** C3 (amended): a set batch with a zero delegatee among its elements
    always fails, and storage and log after the call are those before
    it, so no element of the batch is applied, those before the failing
    one included. The error is that of the first check that fails:
    [NotPKPOwner] when the caller is not the owner; otherwise
    [ArrayLengthMismatch] when the three arrays do not all have the same
    length; otherwise the error of the first element of the batch that
    fails one of its own checks ([InvalidDelegatee] for the zero
    delegatee, then [EmptyIPFSCID], [EmptyPolicyIPFSCID] and
    [ToolNotFound] from the helper), and there is such an element, at or
    before every zero delegatee. So the error is [InvalidDelegatee] when
    the caller is the owner, the arrays have the same length and every
    element before the first zero delegatee passes its checks. *)
Theorem zero_delegatee_aborts_set_batch (msg_sender : Z) (w : World) :
  0 ∈ delegatees ->
  (exists e, external_call (set_call msg_sender) w = (Revert e, w))
  /\
  (msg_sender ≠ ownerOf pkpTokenId ->
   external_call (set_call msg_sender) w = (Revert NotPKPOwner, w))
  /\
  (msg_sender = ownerOf pkpTokenId ->
   ¬ (length toolIpfsCids = length delegatees
      /\ length delegatees = length policyIpfsCids) ->
   external_call (set_call msg_sender) w = (Revert ArrayLengthMismatch, w))
  /\
  (msg_sender = ownerOf pkpTokenId ->
   length toolIpfsCids = length delegatees ->
   length delegatees = length policyIpfsCids ->
   (exists k e,
      (k < length toolIpfsCids)%nat
      /\ (forall k0, delegatees !! k0 = Some 0 -> (k <= k0)%nat)
      /\ (forall j, (j < k)%nat ->
            set_element_error _hashToolCid (storage w) pkpTokenId
              toolIpfsCids delegatees policyIpfsCids j = None)
      /\ set_element_error _hashToolCid (storage w) pkpTokenId toolIpfsCids
           delegatees policyIpfsCids k = Some e
      /\ (e = InvalidDelegatee \/ e = EmptyIPFSCID \/ e = EmptyPolicyIPFSCID
          \/ exists t, toolIpfsCids !! k = Some t /\ e = ToolNotFound t)
      /\ external_call (set_call msg_sender) w = (Revert e, w))
   /\
   (forall k e,
      (k < length toolIpfsCids)%nat ->
      (forall j, (j < k)%nat ->
         set_element_error _hashToolCid (storage w) pkpTokenId toolIpfsCids
           delegatees policyIpfsCids j = None) ->
      set_element_error _hashToolCid (storage w) pkpTokenId toolIpfsCids
        delegatees policyIpfsCids k = Some e ->
      external_call (set_call msg_sender) w = (Revert e, w))
   /\
   (forall k : nat,
      delegatees !! k = Some 0 ->
      (forall j, (j < k)%nat ->
         set_element_passes _hashToolCid (storage w) pkpTokenId toolIpfsCids
           delegatees policyIpfsCids j = true) ->
      external_call (set_call msg_sender) w = (Revert InvalidDelegatee, w))).
Proof.
  intros Hzero.
  assert (Hzero_error : forall k0, delegatees !! k0 = Some 0 ->
            set_element_error _hashToolCid (storage w) pkpTokenId toolIpfsCids
              delegatees policyIpfsCids k0 = Some InvalidDelegatee).
  { intros k0 Hk0. unfold set_element_error. now rewrite Hk0. }
  assert (Hstranger : msg_sender ≠ ownerOf pkpTokenId ->
            external_call (set_call msg_sender) w = (Revert NotPKPOwner, w)).
  { intros Hne. eapply external_call_revert.
    now apply onlyPKPOwner_stranger. }
  assert (Hmismatch : msg_sender = ownerOf pkpTokenId ->
            ¬ (length toolIpfsCids = length delegatees
               /\ length delegatees = length policyIpfsCids) ->
            external_call (set_call msg_sender) w =
            (Revert ArrayLengthMismatch, w)).
  { intros Howner Hlen.
    unfold setCustomToolPoliciesForDelegatees.
    rewrite onlyPKPOwner_owner by exact Howner.
    replace (negb _ || negb _) with true; [reflexivity |].
    symmetry. apply orb_true_iff.
    destruct (decide (length toolIpfsCids = length delegatees)) as [H1 | H1].
    - right. apply length_neqb. intros H2. apply Hlen. now split.
    - left. now apply length_neqb. }
  assert (Hfirst : msg_sender = ownerOf pkpTokenId ->
            length toolIpfsCids = length delegatees ->
            length delegatees = length policyIpfsCids ->
            exists k e,
              (k < length toolIpfsCids)%nat
              /\ (forall k0, delegatees !! k0 = Some 0 -> (k <= k0)%nat)
              /\ (forall j, (j < k)%nat ->
                    set_element_error _hashToolCid (storage w) pkpTokenId
                      toolIpfsCids delegatees policyIpfsCids j = None)
              /\ set_element_error _hashToolCid (storage w) pkpTokenId
                   toolIpfsCids delegatees policyIpfsCids k = Some e
              /\ (e = InvalidDelegatee \/ e = EmptyIPFSCID
                  \/ e = EmptyPolicyIPFSCID
                  \/ exists t, toolIpfsCids !! k = Some t /\ e = ToolNotFound t)
              /\ external_call (set_call msg_sender) w = (Revert e, w)).
  { intros Howner H1 H2.
    apply list_elem_of_lookup in Hzero as [k0 Hk0].
    destruct (first_failure_exists
                (set_element_error _hashToolCid (storage w) pkpTokenId
                   toolIpfsCids delegatees policyIpfsCids) k0)
      as (k & e & Hk & Hprefix & He).
    { rewrite (Hzero_error k0 Hk0). discriminate. }
    assert (Hlt : (k < length toolIpfsCids)%nat).
    { apply lookup_lt_Some in Hk0. lia. }
    exists k, e. split; [exact Hlt |]. split.
    - intros k1 Hk1. destruct (le_lt_dec k k1) as [Hle | Hgt]; [exact Hle |].
      pose proof (Hzero_error k1 Hk1) as Hk1_error.
      rewrite (Hprefix k1 Hgt) in Hk1_error. discriminate.
    - split; [exact Hprefix |]. split; [exact He |]. split.
      + apply (set_element_error_kinds (storage w) k e); [lia | lia | lia |].
        exact He.
      + now apply (set_call_first_error msg_sender w k e). }
  split.
  { destruct (decide (msg_sender = ownerOf pkpTokenId)) as [Howner | Hne];
      [| eauto].
    destruct (decide (length toolIpfsCids = length delegatees
                      /\ length delegatees = length policyIpfsCids))
      as [[H1 H2] | Hlen]; [| eauto].
    destruct (Hfirst Howner H1 H2) as (k & e & _ & _ & _ & _ & _ & Hcall).
    eauto. }
  split; [exact Hstranger |]. split; [exact Hmismatch |].
  intros Howner H1 H2. split; [now apply Hfirst |]. split.
  - intros k e. now apply set_call_first_error.
  - intros k Hk Hprefix.
    apply (set_call_first_error msg_sender w k InvalidDelegatee);
      try assumption.
    + apply lookup_lt_Some in Hk. lia.
    + intros j Hj. now apply set_element_passes_no_error, Hprefix.
    + now apply Hzero_error.
Qed.

Lemma originalCid_at_set_written (l : Layout) (t : string) (d : Z)
    (p : string) (h : Z) :
  originalCid_at (set_written l t d p) h =
  if decide (_hashPolicyCid p = h) then p else originalCid_at l h.
Proof.
  unfold set_written. rewrite originalCid_at_write_customPolicy.
  apply originalCid_at_write_originalCid.
Qed.

(** The rest of the loop keeps a reverse index entry, as long as no
    later element carries another identifier with the same hash. *)
Lemma set_loop_keeps_entry (h : Z) (X : string) :
  forall count start w w',
    for_range start count set_iteration w = (Ok tt, w') ->
    originalCid_at (storage w) h = X ->
    (forall j Y, (start <= j)%nat -> policyIpfsCids !! j = Some Y ->
                 _hashPolicyCid Y = h -> Y = X) ->
    originalCid_at (storage w') h = X.
Proof.
  induction count as [| count IH]; intros start w w' Hloop Hentry Hlater;
    apply for_range_ok_inv in Hloop.
  - now subst w'.
  - destruct Hloop as (w1 & Hbody & Hrest).
    apply set_each_ok_inv in Hbody as (t & d & p & _ & _ & Hp & ->).
    apply (IH _ _ _ Hrest).
    + cbn [storage]. rewrite originalCid_at_set_written.
      destruct (decide (_hashPolicyCid p = h)) as [Hh | _]; [| exact Hentry].
      now apply (Hlater start).
    + intros j Y Hj. apply Hlater. lia.
Qed.

Lemma set_loop_round_trip (i : nat) (X : string) :
  policyIpfsCids !! i = Some X ->
  (forall j Y, (i < j)%nat -> policyIpfsCids !! j = Some Y ->
               _hashPolicyCid Y = _hashPolicyCid X -> Y = X) ->
  forall count start w w',
    (start <= i < start + count)%nat ->
    for_range start count set_iteration w = (Ok tt, w') ->
    originalCid_at (storage w') (_hashPolicyCid X) = X.
Proof.
  intros HX Hlater.
  induction count as [| count IH]; intros start w w' Hrange Hloop; [lia |].
  apply for_range_ok_inv in Hloop as (w1 & Hbody & Hrest).
  destruct (decide (start = i)) as [-> | Hne].
  - apply set_each_ok_inv in Hbody as (t & d & p & _ & _ & Hp & ->).
    assert (p = X) as -> by congruence.
    apply (set_loop_keeps_entry _ _ _ _ _ _ Hrest).
    + cbn [storage]. rewrite originalCid_at_set_written.
      now rewrite decide_True.
    + intros j Y Hj. apply Hlater. lia.
  - eapply IH; [| exact Hrest]. lia.
Qed.

(** Whatever the later elements are, the entry under a hash keeps being
    an identifier with that hash. *)
Lemma set_loop_keeps_hash (h : Z) :
  forall count start w w',
    for_range start count set_iteration w = (Ok tt, w') ->
    _hashPolicyCid (originalCid_at (storage w) h) = h ->
    _hashPolicyCid (originalCid_at (storage w') h) = h.
Proof.
  induction count as [| count IH]; intros start w w' Hloop Hentry;
    apply for_range_ok_inv in Hloop.
  - now subst w'.
  - destruct Hloop as (w1 & Hbody & Hrest).
    apply set_each_ok_inv in Hbody as (t & d & p & _ & _ & Hp & ->).
    apply (IH _ _ _ Hrest). cbn [storage].
    rewrite originalCid_at_set_written.
    now destruct (decide (_hashPolicyCid p = h)).
Qed.

Lemma set_loop_hash_round_trip (i : nat) (X : string) :
  policyIpfsCids !! i = Some X ->
  forall count start w w',
    (start <= i < start + count)%nat ->
    for_range start count set_iteration w = (Ok tt, w') ->
    _hashPolicyCid (originalCid_at (storage w') (_hashPolicyCid X)) =
    _hashPolicyCid X.
Proof.
  intros HX.
  induction count as [| count IH]; intros start w w' Hrange Hloop; [lia |].
  apply for_range_ok_inv in Hloop as (w1 & Hbody & Hrest).
  destruct (decide (start = i)) as [-> | Hne].
  - apply set_each_ok_inv in Hbody as (t & d & p & _ & _ & Hp & ->).
    assert (p = X) as -> by congruence.
    apply (set_loop_keeps_hash _ _ _ _ _ Hrest). cbn [storage].
    rewrite originalCid_at_set_written. now rewrite decide_True.
  - eapply IH; [| exact Hrest]. lia.
Qed.

(** What a set batch that went through did: the loop ran over all the
    elements, then the event was logged. *)
Lemma set_call_ok_inv (msg_sender : Z) (w w' : World) :
  external_call (set_call msg_sender) w = (Ok tt, w') ->
  msg_sender = ownerOf pkpTokenId
  /\ length toolIpfsCids = length delegatees
  /\ length delegatees = length policyIpfsCids
  /\ exists w1,
       for_range 0 (length toolIpfsCids) set_iteration w = (Ok tt, w1)
       /\ storage w' = storage w1.
Proof.
  intros Hcall. apply external_call_ok_inv in Hcall.
  unfold setCustomToolPoliciesForDelegatees, onlyPKPOwner in Hcall.
  destruct (bool_decide _) eqn:Howner; [| discriminate].
  apply bool_decide_eq_true in Howner.
  destruct (_ || _) eqn:Hlen; [discriminate |].
  apply orb_false_iff in Hlen as [H1 H2].
  apply negb_false_iff, Nat.eqb_eq in H1, H2.
  unfold bind in Hcall.
  destruct (for_range _ _ _ w) as [[[] | e] w1] eqn:Hloop; [| discriminate].
  unfold emit in Hcall. injection Hcall as <-.
  repeat split; try assumption. exists w1. split; reflexivity.
Qed.

(** C7: after a set batch that succeeded, the reverse index entry under
    the hash of a policy identifier [X] of the batch is an identifier
    with that hash, and it is [X] itself as long as no later element of
    the same batch carries a different identifier with the hash of [X]
    (the hash is free of collisions on the batch); a resolution that
    then selects a policy with that hash, custom or blanket, returns
    [X]. *)
Theorem reverse_index_round_trip (msg_sender : Z) (w w' : World) (i : nat)
    (X : string) :
  external_call (set_call msg_sender) w = (Ok tt, w') ->
  policyIpfsCids !! i = Some X ->
  _hashPolicyCid (originalCid_at (storage w') (_hashPolicyCid X)) =
  _hashPolicyCid X
  /\
  ((forall j Y, (i < j)%nat -> policyIpfsCids !! j = Some Y ->
                _hashPolicyCid Y = _hashPolicyCid X -> Y = X) ->
   originalCid_at (storage w') (_hashPolicyCid X) = X
   /\
   forall (caller pkpTokenId' : Z) (toolIpfsCid : string) (delegatee : Z),
     let tool := toolMap_at (pkpStore_at (storage w') pkpTokenId')
                   (_hashToolCid toolIpfsCid) in
     let custom := customPolicy_at tool delegatee in
     let blanket := blanketPolicy_at tool 0 in
     _hashToolCid toolIpfsCid ∈ toolCids (pkpStore_at (storage w') pkpTokenId') ->
     (policyIpfsCidHash custom = _hashPolicyCid X ->
      policyIpfsCidHash custom ≠ 0 -> enabled custom = true ->
      getEffectiveToolPolicyForDelegatee _hashToolCid caller (storage w')
        pkpTokenId' toolIpfsCid delegatee = Ok (X, true))
     /\
     (policyIpfsCidHash custom = 0 \/ enabled custom = false ->
      policyIpfsCidHash blanket = _hashPolicyCid X ->
      policyIpfsCidHash blanket ≠ 0 -> enabled blanket = true ->
      getEffectiveToolPolicyForDelegatee _hashToolCid caller (storage w')
        pkpTokenId' toolIpfsCid delegatee = Ok (X, false))).
Proof.
  intros Hcall HX.
  apply set_call_ok_inv in Hcall as (_ & H1 & H2 & w1 & Hloop & Hst).
  assert (Hi : (0 <= i < 0 + length toolIpfsCids)%nat).
  { apply lookup_lt_Some in HX. lia. }
  split.
  { rewrite Hst. eapply (set_loop_hash_round_trip i X HX); eassumption. }
  intros Hlater.
  assert (Hentry : originalCid_at (storage w') (_hashPolicyCid X) = X).
  { rewrite Hst. eapply (set_loop_round_trip i X HX Hlater); eassumption. }
  split; [exact Hentry |].
  intros caller pkp' tool0 d tool custom blanket Hin. split.
  - intros Hh Hnz Hen.
    rewrite getEffective_registered by exact Hin. cbv zeta.
    fold tool. fold custom. rewrite qualifies_true by assumption.
    now rewrite Hh, Hentry.
  - intros Hc Hh Hnz Hen.
    rewrite getEffective_registered by exact Hin. cbv zeta.
    fold tool. fold custom. fold blanket.
    rewrite (qualifies_false custom) by exact Hc.
    rewrite qualifies_true by assumption.
    now rewrite Hh, Hentry.
Qed.

Lemma customPolicy_of_set_written (l : Layout) (t : string) (d : Z)
    (p : string) (toolCidHash' delegatee' : Z) :
  customPolicy_of (set_written l t d p) pkpTokenId toolCidHash' delegatee' =
  if decide (_hashToolCid t = toolCidHash' /\ d = delegatee')
  then mkPolicy enablePolicies (_hashPolicyCid p)
  else customPolicy_of l pkpTokenId toolCidHash' delegatee'.
Proof.
  unfold set_written. rewrite customPolicy_of_write_customPolicy.
  rewrite customPolicy_of_write_originalCid.
  destruct (decide (_hashToolCid t = toolCidHash' /\ d = delegatee'))
    as [[<- <-] | Hne].
  - now rewrite decide_True.
  - rewrite decide_False; [reflexivity |]. intros (_ & ? & ?). now apply Hne.
Qed.

(** The rest of the loop keeps a custom policy slot that no later element
    writes again. *)
Lemma set_loop_keeps_slot (toolCidHash delegatee : Z) (P : Policy) :
  forall count start w w',
    for_range start count set_iteration w = (Ok tt, w') ->
    customPolicy_of (storage w) pkpTokenId toolCidHash delegatee = P ->
    (forall j t d, (start <= j)%nat -> toolIpfsCids !! j = Some t ->
                   delegatees !! j = Some d ->
                   ¬ (_hashToolCid t = toolCidHash /\ d = delegatee)) ->
    customPolicy_of (storage w') pkpTokenId toolCidHash delegatee = P.
Proof.
  induction count as [| count IH]; intros start w w' Hloop Hslot Hlater;
    apply for_range_ok_inv in Hloop.
  - now subst w'.
  - destruct Hloop as (w1 & Hbody & Hrest).
    apply set_each_ok_inv in Hbody as (t & d & p & Ht & Hd & _ & ->).
    apply (IH _ _ _ Hrest).
    + cbn [storage]. rewrite customPolicy_of_set_written.
      rewrite decide_False; [exact Hslot |]. now apply (Hlater start).
    + intros j t' d' Hj. apply Hlater. lia.
Qed.

(** A successful set loop leaves the tool sets as they were. *)
Lemma set_loop_keeps_tools (pkpTokenId' : Z) :
  forall count start w w',
    for_range start count set_iteration w = (Ok tt, w') ->
    toolCids (pkpStore_at (storage w') pkpTokenId') =
    toolCids (pkpStore_at (storage w) pkpTokenId').
Proof.
  induction count as [| count IH]; intros start w w' Hloop;
    apply for_range_ok_inv in Hloop.
  - now subst w'.
  - destruct Hloop as (w1 & Hbody & Hrest).
    apply set_each_ok_inv in Hbody as (t & d & p & _ & _ & _ & ->).
    rewrite (IH _ _ _ Hrest). cbn [storage]. apply toolCids_set_written.
Qed.

(** An iteration that succeeded found its tool registered. *)
Lemma set_each_ok_registered (j : nat) (t : string) (w w' : World) :
  set_iteration j w = (Ok tt, w') ->
  toolIpfsCids !! j = Some t ->
  _hashToolCid t ∈ toolCids (pkpStore_at (storage w) pkpTokenId).
Proof.
  unfold set_each, bind, array_get. intros Hb Ht. rewrite Ht in Hb.
  destruct (delegatees !! j) as [d |]; [| discriminate].
  unfold ret at 1 in Hb. destruct (d =? 0); [discriminate |].
  unfold ret at 1 in Hb.
  destruct (policyIpfsCids !! j) as [p |]; [| discriminate].
  unfold ret at 1 in Hb. unfold _setToolPolicy in Hb.
  destruct (is_empty_string t); [discriminate |].
  destruct (is_empty_string p); [discriminate |].
  destruct (tool_registered _ _ _ _) eqn:Hr; [| discriminate].
  now apply bool_decide_eq_true in Hr.
Qed.

Lemma set_loop_slot (i : nat) (t : string) (d : Z) (X : string) :
  toolIpfsCids !! i = Some t -> delegatees !! i = Some d ->
  policyIpfsCids !! i = Some X ->
  (forall j t' d', (i < j)%nat -> toolIpfsCids !! j = Some t' ->
                   delegatees !! j = Some d' ->
                   ¬ (_hashToolCid t' = _hashToolCid t /\ d' = d)) ->
  forall count start w w',
    (start <= i < start + count)%nat ->
    for_range start count set_iteration w = (Ok tt, w') ->
    customPolicy_of (storage w') pkpTokenId (_hashToolCid t) d =
    mkPolicy enablePolicies (_hashPolicyCid X)
    /\ _hashToolCid t ∈ toolCids (pkpStore_at (storage w') pkpTokenId).
Proof.
  intros Ht Hd HX Hslots.
  induction count as [| count IH]; intros start w w' Hrange Hloop; [lia |].
  apply for_range_ok_inv in Hloop as (w1 & Hbody & Hrest).
  destruct (decide (start = i)) as [-> | Hne].
  - pose proof (set_each_ok_registered _ _ _ _ Hbody Ht) as Hreg.
    apply set_each_ok_inv in Hbody as (t0 & d0 & p0 & Ht0 & Hd0 & Hp0 & ->).
    assert (t0 = t) as -> by congruence.
    assert (d0 = d) as -> by congruence.
    assert (p0 = X) as -> by congruence.
    split.
    + apply (set_loop_keeps_slot _ _ _ _ _ _ _ Hrest).
      * cbn [storage]. rewrite customPolicy_of_set_written.
        now rewrite decide_True.
      * intros j t' d' Hj. apply Hslots. lia.
    + rewrite (set_loop_keeps_tools _ _ _ _ _ Hrest). cbn [storage].
      now rewrite toolCids_set_written.
  - eapply IH; [| exact Hrest]. lia.
Qed.

(** The full round trip: the last element of a successful batch that
    writes a slot decides what the resolution of that slot returns. *)
Lemma set_then_resolve (msg_sender : Z) (w w' : World) (i : nat)
    (t : string) (d : Z) (X : string) :
  external_call (set_call msg_sender) w = (Ok tt, w') ->
  toolIpfsCids !! i = Some t -> delegatees !! i = Some d ->
  policyIpfsCids !! i = Some X ->
  (forall j t' d', (i < j)%nat -> toolIpfsCids !! j = Some t' ->
                   delegatees !! j = Some d' ->
                   ¬ (_hashToolCid t' = _hashToolCid t /\ d' = d)) ->
  (forall j Y, (i < j)%nat -> policyIpfsCids !! j = Some Y ->
               _hashPolicyCid Y = _hashPolicyCid X -> Y = X) ->
  customPolicy_of (storage w') pkpTokenId (_hashToolCid t) d =
  mkPolicy enablePolicies (_hashPolicyCid X)
  /\
  (enablePolicies = true -> _hashPolicyCid X ≠ 0 ->
   forall caller,
     getEffectiveToolPolicyForDelegatee _hashToolCid caller (storage w')
       pkpTokenId t d = Ok (X, true)).
Proof.
  intros Hcall Ht Hd HX Hslots Hlater.
  apply set_call_ok_inv in Hcall as (_ & H1 & H2 & w1 & Hloop & Hst).
  assert (Hi : (0 <= i < 0 + length toolIpfsCids)%nat).
  { apply lookup_lt_Some in HX. lia. }
  assert (Hentry : originalCid_at (storage w') (_hashPolicyCid X) = X).
  { rewrite Hst. eapply (set_loop_round_trip i X HX Hlater); eassumption. }
  destruct (set_loop_slot i t d X Ht Hd HX Hslots _ _ _ _ Hi Hloop)
    as [Hslot Hreg].
  rewrite <- Hst in Hslot, Hreg.
  split; [exact Hslot |].
  intros Hen Hnz caller.
  rewrite getEffective_registered by exact Hreg. cbv zeta.
  fold (customPolicy_of (storage w') pkpTokenId (_hashToolCid t) d).
  rewrite Hslot. cbn [policyIpfsCidHash enabled].
  rewrite Hen, andb_true_r.
  replace (negb (_hashPolicyCid X =? 0)) with true
    by (symmetry; now apply negb_true_iff, Z.eqb_neq).
  now rewrite Hentry.
Qed.

End SetBatch.

(** ** The enable and disable batches *)

Lemma same_shape_refl (l : Layout) : same_shape l l.
Proof. split; reflexivity. Qed.

Lemma same_shape_trans (l2 l1 l0 : Layout) :
  same_shape l2 l1 -> same_shape l1 l0 -> same_shape l2 l0.
Proof.
  intros [Ht2 Hh2] [Ht1 Hh1]. split; intros.
  - now rewrite Ht2.
  - now rewrite Hh2.
Qed.

Section FlagBatch.

Variable _hashToolCid : string -> bytes32.
Variable ownerOf : uint256 -> address.

Variables (pkpTokenId : Z) (toolIpfsCids : list string) (delegatees : list Z).

Abbreviation flag_iteration := (fun flag : bool =>
  each_delegatee toolIpfsCids delegatees
    (fun t d => set_policy_flag _hashToolCid pkpTokenId t d flag)).

(** An enable or disable entry point, for either value of the flag and
    its event. *)
Abbreviation flag_call := (fun (flag : bool) (ev : Event) (msg_sender : Z) =>
  onlyPKPOwner ownerOf msg_sender pkpTokenId (
    if negb (length toolIpfsCids =? length delegatees)%nat
    then revert ArrayLengthMismatch
    else for_range 0 (length toolIpfsCids) (flag_iteration flag) >> emit ev)).

Lemma flag_each_zero (flag : bool) (k : nat) (w : World) :
  delegatees !! k = Some 0 ->
  flag_iteration flag k w = (Revert InvalidDelegatee, w).
Proof.
  intros Hk. unfold each_delegatee, bind, array_get. rewrite Hk. reflexivity.
Qed.

(** Toggling a flag changes neither a tool set nor a policy hash. *)
Lemma set_policy_flag_ok_shape (flag : bool) (t : string) (d : Z)
    (w w' : World) :
  set_policy_flag _hashToolCid pkpTokenId t d flag w = (Ok tt, w') ->
  same_shape (storage w') (storage w).
Proof.
  unfold set_policy_flag.
  destruct (is_empty_string t); [discriminate |].
  destruct (negb _); [discriminate |].
  destruct (_ =? 0); [discriminate |].
  unfold modify_storage. intros [= <-]. cbn [storage]. split.
  - intros pkp'. apply toolCids_write_customPolicy.
  - intros pkp' th' d'. rewrite customPolicy_of_write_customPolicy.
    destruct (decide _) as [(<- & <- & <-) |]; reflexivity.
Qed.

Lemma flag_each_ok_shape (flag : bool) (j : nat) (w w' : World) :
  flag_iteration flag j w = (Ok tt, w') ->
  same_shape (storage w') (storage w).
Proof.
  unfold each_delegatee, bind, array_get.
  destruct (delegatees !! j) as [d |]; [| discriminate].
  unfold ret at 1. destruct (d =? 0); [discriminate |].
  destruct (toolIpfsCids !! j) as [t |]; [| discriminate].
  unfold ret at 1. apply set_policy_flag_ok_shape.
Qed.

(** The iteration on a slot without a policy hash reverts. *)
Lemma flag_each_absent (flag : bool) (i : nat) (t : string) (d : Z)
    (w : World) :
  toolIpfsCids !! i = Some t -> delegatees !! i = Some d ->
  policyIpfsCidHash
    (customPolicy_of (storage w) pkpTokenId (_hashToolCid t) d) = 0 ->
  exists e,
    flag_iteration flag i w = (Revert e, w)
    /\ (d ≠ 0 -> is_empty_string t = false ->
        tool_registered _hashToolCid (storage w) pkpTokenId t = true ->
        e = NoPolicySet).
Proof.
  intros Ht Hd Hslot. unfold each_delegatee, bind, array_get.
  rewrite Hd, Ht. unfold ret at 1.
  destruct (d =? 0) eqn:Hz.
  { eexists. split; [reflexivity |]. intros Hne. apply Z.eqb_eq in Hz. done. }
  unfold ret at 1. unfold set_policy_flag.
  destruct (is_empty_string t).
  { eexists. split; [reflexivity | discriminate]. }
  destruct (tool_registered _ _ _ _); cbn [negb].
  - rewrite Hslot. cbn. eexists. split; [reflexivity | auto].
  - eexists. split; [reflexivity | discriminate].
Qed.

Lemma flag_each_passes (flag : bool) (j : nat) (w : World) :
  flag_element_passes _hashToolCid (storage w) pkpTokenId toolIpfsCids
    delegatees j = true ->
  exists w', flag_iteration flag j w = (Ok tt, w').
Proof.
  unfold flag_element_passes, each_delegatee, bind, array_get.
  destruct (toolIpfsCids !! j) as [t |]; [| discriminate].
  destruct (delegatees !! j) as [d |]; [| discriminate].
  intros H. apply andb_true_iff in H as [H Hh].
  apply andb_true_iff in H as [H Hreg]. apply andb_true_iff in H as [Hd Ht].
  apply negb_true_iff in Hd, Ht, Hh.
  unfold ret at 1. rewrite Hd. unfold ret at 1.
  unfold set_policy_flag. rewrite Ht, Hreg, Hh. cbn [negb].
  eexists. reflexivity.
Qed.

Lemma flag_element_passes_same_shape (l' l : Layout) (j : nat) :
  same_shape l' l ->
  flag_element_passes _hashToolCid l' pkpTokenId toolIpfsCids delegatees j =
  flag_element_passes _hashToolCid l pkpTokenId toolIpfsCids delegatees j.
Proof.
  intros [Htools Hhash]. unfold flag_element_passes, tool_registered.
  destruct (toolIpfsCids !! j) as [t |]; [| reflexivity].
  destruct (delegatees !! j) as [d |]; [| reflexivity].
  now rewrite Htools, Hhash.
Qed.

(** What an iteration of the enable or disable loop does is decided by
    the error of its element. *)
Lemma flag_each_outcome (flag : bool) (j : nat) (w : World) :
  match flag_element_error _hashToolCid (storage w) pkpTokenId toolIpfsCids
          delegatees j with
  | Some e => flag_iteration flag j w = (Revert e, w)
  | None => exists w', flag_iteration flag j w = (Ok tt, w')
  end.
Proof.
  unfold flag_element_error, each_delegatee, bind, array_get, ret, revert.
  destruct (delegatees !! j) as [d |]; [| reflexivity].
  destruct (d =? 0); [reflexivity |].
  destruct (toolIpfsCids !! j) as [t |]; [| reflexivity].
  unfold set_policy_flag, revert.
  destruct (is_empty_string t); [reflexivity |].
  destruct (negb _); [reflexivity |].
  destruct (_ =? 0); [reflexivity |].
  eexists. reflexivity.
Qed.

Lemma flag_element_error_same_shape (l' l : Layout) (j : nat) :
  same_shape l' l ->
  flag_element_error _hashToolCid l' pkpTokenId toolIpfsCids delegatees j =
  flag_element_error _hashToolCid l pkpTokenId toolIpfsCids delegatees j.
Proof.
  intros [Htools Hhash]. unfold flag_element_error, tool_registered.
  destruct (delegatees !! j) as [d |]; [| reflexivity].
  destruct (toolIpfsCids !! j) as [t |]; [| reflexivity].
  now rewrite Htools, Hhash.
Qed.

Lemma flag_element_passes_no_error (l : Layout) (j : nat) :
  flag_element_passes _hashToolCid l pkpTokenId toolIpfsCids delegatees j = true ->
  flag_element_error _hashToolCid l pkpTokenId toolIpfsCids delegatees j = None.
Proof.
  unfold flag_element_passes, flag_element_error.
  destruct (toolIpfsCids !! j) as [t |]; [| discriminate].
  destruct (delegatees !! j) as [d |]; [| discriminate].
  intros H. apply andb_true_iff in H as [H Hh].
  apply andb_true_iff in H as [H Hreg]. apply andb_true_iff in H as [Hd Ht].
  apply negb_true_iff in Hd, Ht, Hh. now rewrite Hd, Ht, Hreg, Hh.
Qed.

(** The errors an element of an enable or disable batch can fail with. *)
Lemma flag_element_error_kinds (l : Layout) (j : nat) (e : Error) :
  (j < length toolIpfsCids)%nat -> (j < length delegatees)%nat ->
  flag_element_error _hashToolCid l pkpTokenId toolIpfsCids delegatees j =
  Some e ->
  e = InvalidDelegatee \/ e = EmptyIPFSCID
  \/ (exists t, toolIpfsCids !! j = Some t /\ e = ToolNotFound t)
  \/ e = NoPolicySet.
Proof.
  intros Ht Hd.
  apply lookup_lt_is_Some_2 in Ht as [t Ht], Hd as [d Hd].
  unfold flag_element_error. rewrite Ht, Hd.
  destruct (d =? 0); [intros [= <-]; auto |].
  destruct (is_empty_string t); [intros [= <-]; auto |].
  destruct (negb _); [intros [= <-]; right; right; left; eauto |].
  destruct (_ =? 0); [intros [= <-]; auto | discriminate].
Qed.

(** The owner's enable or disable batch with arrays of equal length
    fails with the error of its first failing element. *)
Lemma flag_call_first_error (flag : bool) (ev : Event) (msg_sender : Z)
    (w : World) (k : nat) (e : Error) :
  msg_sender = ownerOf pkpTokenId ->
  length toolIpfsCids = length delegatees ->
  (k < length toolIpfsCids)%nat ->
  (forall j, (j < k)%nat ->
     flag_element_error _hashToolCid (storage w) pkpTokenId toolIpfsCids
       delegatees j = None) ->
  flag_element_error _hashToolCid (storage w) pkpTokenId toolIpfsCids
    delegatees k = Some e ->
  external_call (flag_call flag ev msg_sender) w = (Revert e, w).
Proof.
  intros Howner Hlen Hk Hprefix He. cbv beta.
  rewrite onlyPKPOwner_owner by exact Howner.
  rewrite Hlen, Nat.eqb_refl. cbn [negb].
  destruct (for_range_first_revert
              (fun w' => same_shape (storage w') (storage w))
              (flag_iteration flag) k e) with
    (count := length delegatees) (start := 0%nat) (w := w)
    as (w' & Hloop); [| | lia | apply same_shape_refl |].
  - intros j w0 Hj Hinv. pose proof (flag_each_outcome flag j w0) as Hout.
    rewrite (flag_element_error_same_shape _ (storage w)) in Hout by exact Hinv.
    rewrite (Hprefix j Hj) in Hout. destruct Hout as (w1 & Hok).
    exists w1. split; [exact Hok |].
    eapply same_shape_trans; [eapply flag_each_ok_shape, Hok | exact Hinv].
  - intros w0 Hinv. pose proof (flag_each_outcome flag k w0) as Hout.
    rewrite (flag_element_error_same_shape _ (storage w)) in Hout by exact Hinv.
    rewrite He in Hout. eauto.
  - eapply external_call_revert, bind_revert, Hloop.
Qed.

(** A batch that contains a slot without a policy hash fails, for either
    value of the flag, with the error of the first check that fails. *)
Lemma flag_batch_absent (flag : bool) (ev : Event) (msg_sender : Z)
    (w : World) (i : nat) (t : string) (d : Z) :
  toolIpfsCids !! i = Some t -> delegatees !! i = Some d ->
  policyIpfsCidHash
    (customPolicy_of (storage w) pkpTokenId (_hashToolCid t) d) = 0 ->
  (msg_sender ≠ ownerOf pkpTokenId ->
   external_call (flag_call flag ev msg_sender) w = (Revert NotPKPOwner, w))
  /\
  (msg_sender = ownerOf pkpTokenId ->
   length toolIpfsCids ≠ length delegatees ->
   external_call (flag_call flag ev msg_sender) w =
   (Revert ArrayLengthMismatch, w))
  /\
  (msg_sender = ownerOf pkpTokenId ->
   length toolIpfsCids = length delegatees ->
   (exists k e,
      (k <= i)%nat
      /\ (forall j, (j < k)%nat ->
            flag_element_error _hashToolCid (storage w) pkpTokenId
              toolIpfsCids delegatees j = None)
      /\ flag_element_error _hashToolCid (storage w) pkpTokenId toolIpfsCids
           delegatees k = Some e
      /\ (e = InvalidDelegatee \/ e = EmptyIPFSCID
          \/ (exists t, toolIpfsCids !! k = Some t /\ e = ToolNotFound t)
          \/ e = NoPolicySet)
      /\ external_call (flag_call flag ev msg_sender) w = (Revert e, w))
   /\
   (d ≠ 0 -> is_empty_string t = false ->
    _hashToolCid t ∈ toolCids (pkpStore_at (storage w) pkpTokenId) ->
    (forall j, (j < i)%nat ->
       flag_element_passes _hashToolCid (storage w) pkpTokenId toolIpfsCids
         delegatees j = true) ->
    external_call (flag_call flag ev msg_sender) w = (Revert NoPolicySet, w))).
Proof.
  intros Ht Hd Hslot.
  assert (Hlt : (i < length toolIpfsCids)%nat) by (eapply lookup_lt_Some, Ht).
  split.
  { intros Hne. cbv beta. eapply external_call_revert.
    now apply onlyPKPOwner_stranger. }
  split.
  { intros Howner Hlen. cbv beta. rewrite onlyPKPOwner_owner by exact Howner.
    now rewrite length_neqb. }
  intros Howner Hlen. split.
  - destruct (first_failure_exists
                (flag_element_error _hashToolCid (storage w) pkpTokenId
                   toolIpfsCids delegatees) i)
      as (k & e & Hk & Hprefix & He).
    { unfold flag_element_error. rewrite Hd, Ht, Hslot.
      destruct (d =? 0); [discriminate |].
      destruct (is_empty_string t); [discriminate |].
      destruct (negb _); discriminate. }
    exists k, e. split; [exact Hk |]. split; [exact Hprefix |].
    split; [exact He |]. split.
    + apply (flag_element_error_kinds (storage w) k e); [lia | lia | exact He].
    + apply (flag_call_first_error flag ev msg_sender w k e); try assumption.
      lia.
  - intros Hdnz Htne Hreg Hprefix.
    apply (flag_call_first_error flag ev msg_sender w i NoPolicySet);
      try assumption.
    + intros j Hj. now apply flag_element_passes_no_error, Hprefix.
    + unfold flag_element_error, tool_registered. rewrite Hd, Ht, Hslot, Htne.
      rewrite (bool_decide_eq_true_2 _ Hreg). cbn [negb].
      apply Z.eqb_neq in Hdnz. now rewrite Hdnz.
Qed.

(** C8 (amended): an enable or disable batch that contains a slot with
    no custom policy hash never succeeds as a no-op: the call fails and
    storage and log are those before it. The error is that of the first
    check that fails: [NotPKPOwner] when the caller is not the owner;
    otherwise [ArrayLengthMismatch] when the two arrays differ in length;
    otherwise the error of the first element of the batch that fails one
    of its own checks ([InvalidDelegatee] for the zero delegatee, then
    [EmptyIPFSCID], [ToolNotFound] and [NoPolicySet] from the helper),
    and there is such an element, at or before the slot. So the error is
    [NoPolicySet] when the caller is the owner, the arrays have the same
    length, the elements before the slot pass their checks, and the slot
    itself has a non-zero delegatee and a registered, non-empty tool
    identifier. *)
Theorem toggling_absent_policy_aborts (msg_sender : Z) (w : World) (i : nat)
    (t : string) (d : Z) :
  let enable_call :=
    enableCustomToolPoliciesForDelegatees _hashToolCid ownerOf msg_sender
      pkpTokenId toolIpfsCids delegatees in
  let disable_call :=
    disableCustomToolPoliciesForDelegatees _hashToolCid ownerOf msg_sender
      pkpTokenId toolIpfsCids delegatees in
  toolIpfsCids !! i = Some t -> delegatees !! i = Some d ->
  policyIpfsCidHash
    (customPolicy_of (storage w) pkpTokenId (_hashToolCid t) d) = 0 ->
  (exists e, external_call enable_call w = (Revert e, w)
             /\ external_call disable_call w = (Revert e, w))
  /\
  (msg_sender ≠ ownerOf pkpTokenId ->
   external_call enable_call w = (Revert NotPKPOwner, w)
   /\ external_call disable_call w = (Revert NotPKPOwner, w))
  /\
  (msg_sender = ownerOf pkpTokenId ->
   length toolIpfsCids ≠ length delegatees ->
   external_call enable_call w = (Revert ArrayLengthMismatch, w)
   /\ external_call disable_call w = (Revert ArrayLengthMismatch, w))
  /\
  (msg_sender = ownerOf pkpTokenId ->
   length toolIpfsCids = length delegatees ->
   (exists k e,
      (k <= i)%nat
      /\ (forall j, (j < k)%nat ->
            flag_element_error _hashToolCid (storage w) pkpTokenId
              toolIpfsCids delegatees j = None)
      /\ flag_element_error _hashToolCid (storage w) pkpTokenId toolIpfsCids
           delegatees k = Some e
      /\ (e = InvalidDelegatee \/ e = EmptyIPFSCID
          \/ (exists t, toolIpfsCids !! k = Some t /\ e = ToolNotFound t)
          \/ e = NoPolicySet)
      /\ external_call enable_call w = (Revert e, w)
      /\ external_call disable_call w = (Revert e, w))
   /\
   (forall k e,
      (k < length toolIpfsCids)%nat ->
      (forall j, (j < k)%nat ->
         flag_element_error _hashToolCid (storage w) pkpTokenId toolIpfsCids
           delegatees j = None) ->
      flag_element_error _hashToolCid (storage w) pkpTokenId toolIpfsCids
        delegatees k = Some e ->
      external_call enable_call w = (Revert e, w)
      /\ external_call disable_call w = (Revert e, w))
   /\
   (d ≠ 0 -> is_empty_string t = false ->
    _hashToolCid t ∈ toolCids (pkpStore_at (storage w) pkpTokenId) ->
    (forall j, (j < i)%nat ->
       flag_element_passes _hashToolCid (storage w) pkpTokenId toolIpfsCids
         delegatees j = true) ->
    external_call enable_call w = (Revert NoPolicySet, w)
    /\ external_call disable_call w = (Revert NoPolicySet, w))).
Proof.
  intros enable_call disable_call Ht Hd Hslot.
  pose proof (flag_batch_absent true
                (PoliciesEnabled pkpTokenId toolIpfsCids delegatees)
                msg_sender w i t d Ht Hd Hslot) as (Hen1 & Hen2 & Hen3).
  pose proof (flag_batch_absent false
                (PoliciesDisabled pkpTokenId toolIpfsCids delegatees)
                msg_sender w i t d Ht Hd Hslot) as (Hdis1 & Hdis2 & Hdis3).
  assert (Hfirst : msg_sender = ownerOf pkpTokenId ->
            length toolIpfsCids = length delegatees ->
            forall k e,
              (k < length toolIpfsCids)%nat ->
              (forall j, (j < k)%nat ->
                 flag_element_error _hashToolCid (storage w) pkpTokenId
                   toolIpfsCids delegatees j = None) ->
              flag_element_error _hashToolCid (storage w) pkpTokenId
                toolIpfsCids delegatees k = Some e ->
              external_call enable_call w = (Revert e, w)
              /\ external_call disable_call w = (Revert e, w)).
  { intros Howner Hlen k e Hk Hprefix He. split.
    - now apply (flag_call_first_error true
                   (PoliciesEnabled pkpTokenId toolIpfsCids delegatees)
                   msg_sender w k e).
    - now apply (flag_call_first_error false
                   (PoliciesDisabled pkpTokenId toolIpfsCids delegatees)
                   msg_sender w k e). }
  assert (Hexists : msg_sender = ownerOf pkpTokenId ->
            length toolIpfsCids = length delegatees ->
            exists k e,
              (k <= i)%nat
              /\ (forall j, (j < k)%nat ->
                    flag_element_error _hashToolCid (storage w) pkpTokenId
                      toolIpfsCids delegatees j = None)
              /\ flag_element_error _hashToolCid (storage w) pkpTokenId
                   toolIpfsCids delegatees k = Some e
              /\ (e = InvalidDelegatee \/ e = EmptyIPFSCID
                  \/ (exists t, toolIpfsCids !! k = Some t /\ e = ToolNotFound t)
                  \/ e = NoPolicySet)
              /\ external_call enable_call w = (Revert e, w)
              /\ external_call disable_call w = (Revert e, w)).
  { intros Howner Hlen.
    destruct (Hen3 Howner Hlen) as [(k & e & Hk & Hprefix & He & Hkind & _) _].
    assert (Hlt : (k < length toolIpfsCids)%nat).
    { apply lookup_lt_Some in Ht. lia. }
    exists k, e. split; [exact Hk |]. split; [exact Hprefix |].
    split; [exact He |]. split; [exact Hkind |].
    now apply (Hfirst Howner Hlen k e). }
  split.
  { destruct (decide (msg_sender = ownerOf pkpTokenId)) as [Howner | Hne].
    - destruct (decide (length toolIpfsCids = length delegatees))
        as [Hlen | Hlen].
      + destruct (Hexists Howner Hlen) as (k & e & _ & _ & _ & _ & H1 & H2).
        eauto.
      + exists ArrayLengthMismatch. split; [now apply Hen2 | now apply Hdis2].
    - exists NotPKPOwner. split; [now apply Hen1 | now apply Hdis1]. }
  split. { intros Hne. split; [now apply Hen1 | now apply Hdis1]. }
  split. { intros Howner Hlen. split; [now apply Hen2 | now apply Hdis2]. }
  intros Howner Hlen. split; [now apply Hexists |].
  split; [now apply Hfirst |].
  intros Hdnz Htne Hreg Hprefix. split.
  - now apply (proj2 (Hen3 Howner Hlen)).
  - now apply (proj2 (Hdis3 Howner Hlen)).
Qed.

End FlagBatch.

(** ** Worked instances of the batch functions *)

(** The spec's scenario: a set batch of three elements whose second
    element has the zero delegatee, sent by the owner. *)
Lemma zero_delegatee_aborts_set_batch_witness :
  external_call
    (sample_set sample_owner 1 ["cidA"; "cidA"; "cidA"]%string [alice; 0; bob]
       ["p1"; "p2"; "p3"]%string true) (fresh registered_only) =
  (Revert InvalidDelegatee, fresh registered_only).
Proof.
  pose proof (zero_delegatee_aborts_set_batch sample_hash sample_hash
                sample_ownerOf 1 ["cidA"; "cidA"; "cidA"]%string
                [alice; 0; bob] ["p1"; "p2"; "p3"]%string true
                sample_owner (fresh registered_only)) as H.
  destruct H as (_ & _ & _ & H).
  - apply list_elem_of_lookup. exists 1%nat. reflexivity.
  - destruct (H eq_refl eq_refl eq_refl) as (_ & _ & Hzero).
    apply (Hzero 1%nat).
    + reflexivity.
    + intros [| j] Hj; [vm_compute; reflexivity | lia].
Defined.

(** Inside that call the first element had been written when the loop
    reached the zero delegatee; the revert is what takes it back. *)
Example set_batch_rolls_back :
  let call := sample_set sample_owner 1 ["cidA"; "cidA"; "cidA"]%string
                [alice; 0; bob] ["p1"; "p2"; "p3"]%string true in
  customPolicy_of (storage (snd (call (fresh registered_only))))
    1 (sample_hash "cidA") alice = mkPolicy true (sample_hash "p1")
  /\
  customPolicy_of (storage (snd (external_call call (fresh registered_only))))
    1 (sample_hash "cidA") alice = Policy_zero.
Proof. split; vm_compute; reflexivity. Qed.

(** C3, counterexample: three set batches with a zero delegatee that do
    not fail with [InvalidDelegatee]: the owner's batch whose first
    element names a tool that is not registered (nothing is, in the empty
    storage), the owner's batch with arrays of different lengths, and the
    batch of a caller who is not the owner. None of the three outcomes
    depends on the hash. *)
Lemma zero_delegatee_other_errors :
  fst (external_call
         (sample_set sample_owner 1 ["cidA"; "cidA"]%string [alice; 0]
            ["p1"; "p2"]%string true) (fresh Layout_zero))
  = Revert (ToolNotFound "cidA")
  /\
  fst (external_call
         (sample_set sample_owner 1 ["cidA"]%string [0] [] true)
         (fresh registered_only))
  = Revert ArrayLengthMismatch
  /\
  fst (external_call
         (sample_set bob 1 ["cidA"]%string [0] ["p1"]%string true)
         (fresh registered_only))
  = Revert NotPKPOwner.
Proof. repeat split; vm_compute; reflexivity. Qed.

Lemma length_mismatch_aborts_witness :
  external_call
    (sample_set sample_owner 1 ["cidA"; "cidA"]%string [alice]
       ["p1"; "p2"]%string true) (fresh registered_only) =
  (Revert ArrayLengthMismatch, fresh registered_only)
  /\
  external_call (sample_enable sample_owner 1 ["cidA"]%string [])
    (fresh registered_only) =
  (Revert ArrayLengthMismatch, fresh registered_only).
Proof.
  split.
  - refine (proj1 (length_mismatch_aborts sample_hash sample_hash
                     sample_ownerOf sample_owner 1 ["cidA"; "cidA"]%string
                     [alice] ["p1"; "p2"]%string true (fresh registered_only)) _).
    intros [H _]. discriminate H.
  - refine (proj1 (proj2 (proj2 (length_mismatch_aborts sample_hash sample_hash
                     sample_ownerOf sample_owner 1 ["cidA"]%string
                     [] [] true (fresh registered_only)) _))).
    intros H. discriminate H.
Defined.

(** C5, counterexample: batches with arrays of different lengths, sent by
    a caller who is not the owner, fail with [NotPKPOwner]. *)
Lemma length_mismatch_from_stranger :
  length ["cidA"; "cidA"]%string ≠ length [alice]
  /\
  fst (external_call
         (sample_set bob 1 ["cidA"; "cidA"]%string [alice]
            ["p1"; "p2"]%string true) (fresh registered_only))
  = Revert NotPKPOwner
  /\
  fst (external_call (sample_remove bob 1 ["cidA"; "cidA"]%string [alice])
         (fresh registered_only))
  = Revert NotPKPOwner
  /\
  fst (external_call (sample_enable bob 1 ["cidA"; "cidA"]%string [alice])
         (fresh registered_only))
  = Revert NotPKPOwner
  /\
  fst (external_call (sample_disable bob 1 ["cidA"; "cidA"]%string [alice])
         (fresh registered_only))
  = Revert NotPKPOwner.
Proof. repeat split; try (vm_compute; reflexivity). discriminate. Qed.

Lemma owner_check_runs_first_witness :
  external_call
    (sample_set bob 1 ["cidA"]%string [0; 0] [] true) (fresh registered_only) =
  (Revert NotPKPOwner, fresh registered_only)
  /\
  getEffectiveToolPolicyForDelegatee sample_hash bob registered_only 1 "cidA"
    alice ≠ Revert NotPKPOwner.
Proof.
  pose proof (owner_check_runs_first sample_hash sample_hash sample_ownerOf
                bob 1 (fresh registered_only)) as [Hwrite Hread].
  split.
  - apply Hwrite. vm_compute. discriminate.
  - apply Hread.
Defined.

(** A set batch of two policies for two delegatees, and the reverse index
    after it. *)
Lemma reverse_index_round_trip_witness :
  let w' := snd (external_call
                   (sample_set sample_owner 1 ["cidA"; "cidA"]%string
                      [alice; bob] ["polB"; "polC"]%string true)
                   (fresh registered_only)) in
  originalCid_at (storage w') (sample_hash "polB") = "polB"%string
  /\
  getEffectiveToolPolicyForDelegatee sample_hash bob (storage w') 1 "cidA"
    alice = Ok ("polB"%string, true).
Proof.
  cbv zeta.
  pose proof (reverse_index_round_trip sample_hash sample_hash sample_ownerOf
                1 ["cidA"; "cidA"]%string [alice; bob]
                ["polB"; "polC"]%string true sample_owner
                (fresh registered_only)
                (snd (external_call
                        (sample_set sample_owner 1 ["cidA"; "cidA"]%string
                           [alice; bob] ["polB"; "polC"]%string true)
                        (fresh registered_only)))
                0%nat "polB"%string) as H.
  destruct H as [_ H].
  - vm_compute. reflexivity.
  - reflexivity.
  - destruct H as [Hentry Hresolve].
    + intros [| [| j]] Y Hj HY Hhash.
      * lia.
      * injection HY as <-. vm_compute in Hhash. discriminate Hhash.
      * discriminate HY.
    + split; [exact Hentry |].
      apply (Hresolve bob 1 "cidA"%string alice).
      * vm_compute. reflexivity.
      * vm_compute. reflexivity.
      * vm_compute. discriminate.
      * vm_compute. reflexivity.
Defined.

(** The owner toggles the policies of [alice], who has one, and of [bob],
    who has none. *)
Lemma toggling_absent_policy_aborts_witness :
  external_call
    (sample_enable sample_owner 1 ["cidA"; "cidA"]%string [alice; bob])
    (fresh (with_policies false)) =
  (Revert NoPolicySet, fresh (with_policies false))
  /\
  external_call
    (sample_disable sample_owner 1 ["cidA"; "cidA"]%string [alice; bob])
    (fresh (with_policies false)) =
  (Revert NoPolicySet, fresh (with_policies false)).
Proof.
  pose proof (toggling_absent_policy_aborts sample_hash sample_ownerOf 1
                ["cidA"; "cidA"]%string [alice; bob] sample_owner
                (fresh (with_policies false)) 1%nat "cidA"%string bob) as H.
  cbv zeta in H. destruct H as (_ & _ & _ & H).
  - reflexivity.
  - reflexivity.
  - vm_compute. reflexivity.
  - destruct (H eq_refl eq_refl) as (_ & _ & Hslot). apply Hslot.
    + vm_compute. discriminate.
    + reflexivity.
    + vm_compute. reflexivity.
    + intros [| j] Hj; [vm_compute; reflexivity | lia].
Defined.

(** C8, counterexample: enable batches that contain the slot of [bob] on
    [cidA], which holds no policy, and fail with another error than
    [NoPolicySet]: an earlier element with the zero delegatee, arrays of
    different lengths, a caller who is not the owner; and batches on
    other slots without a policy: the zero delegatee on [cidA], a tool
    that is not registered and the empty tool identifier (in the empty
    storage, where no slot holds a policy). The disable batch fails
    alike. None of the outcomes depends on the hash. *)
Lemma toggling_absent_policy_other_errors :
  policyIpfsCidHash
    (customPolicy_of (with_policies true) 1 (sample_hash "cidA") bob) = 0
  /\
  fst (external_call
         (sample_enable sample_owner 1 ["cidA"; "cidA"]%string [0; bob])
         (fresh (with_policies true)))
  = Revert InvalidDelegatee
  /\
  fst (external_call
         (sample_disable sample_owner 1 ["cidA"; "cidA"]%string [0; bob])
         (fresh (with_policies true)))
  = Revert InvalidDelegatee
  /\
  fst (external_call
         (sample_enable sample_owner 1 ["cidA"; "cidA"]%string [bob])
         (fresh (with_policies true)))
  = Revert ArrayLengthMismatch
  /\
  fst (external_call (sample_enable alice 1 ["cidA"]%string [bob])
         (fresh (with_policies true)))
  = Revert NotPKPOwner
  /\
  fst (external_call (sample_enable sample_owner 1 ["cidA"]%string [0])
         (fresh (with_policies true)))
  = Revert InvalidDelegatee
  /\
  fst (external_call (sample_enable sample_owner 1 ["cidB"]%string [bob])
         (fresh Layout_zero))
  = Revert (ToolNotFound "cidB")
  /\
  fst (external_call (sample_enable sample_owner 1 [EmptyString] [bob])
         (fresh Layout_zero))
  = Revert EmptyIPFSCID.
Proof. repeat split; vm_compute; reflexivity. Qed.

(** Both reads on the zero address, in a storage that holds a policy
    under it. *)
Lemma reads_accept_zero_delegatee_witness :
  getCustomToolPolicyForDelegatee sample_hash bob zero_slot_layout 1 "cidA" 0
  = Ok ("polB"%string, true)
  /\
  getEffectiveToolPolicyForDelegatee sample_hash bob zero_slot_layout 1 "cidA" 0
  = Ok ("polB"%string, true).
Proof.
  pose proof (reads_accept_zero_delegatee sample_hash bob zero_slot_layout 1
                "cidA"%string) as (_ & _ & Hreg).
  destruct Hreg as (_ & Hcustom & Heffective).
  - vm_compute. reflexivity.
  - split.
    + exact Hcustom.
    + apply Heffective; [vm_compute; discriminate | reflexivity].
Defined.

(** ** The two reads side by side *)

Section ReadsTogether.

Variable _hashToolCid : string -> bytes32.

Implicit Types (l : Layout) (pkpTokenId delegatee msg_sender : Z)
  (toolIpfsCid : string).

(** X1: the two reads fail on the same inputs and with the same error,
    and the only error either of them raises is [ToolNotFound] for a
    tool whose hash is not in the PKP's tool set. *)
Theorem reads_fail_alike msg_sender l pkpTokenId toolIpfsCid delegatee
    (e : Error) :
  (getEffectiveToolPolicyForDelegatee _hashToolCid msg_sender l pkpTokenId
     toolIpfsCid delegatee = Revert e
   <->
   getCustomToolPolicyForDelegatee _hashToolCid msg_sender l pkpTokenId
     toolIpfsCid delegatee = Revert e)
  /\
  (getCustomToolPolicyForDelegatee _hashToolCid msg_sender l pkpTokenId
     toolIpfsCid delegatee = Revert e <->
   e = ToolNotFound toolIpfsCid
   /\ _hashToolCid toolIpfsCid ∉ toolCids (pkpStore_at l pkpTokenId)).
Proof.
  unfold getEffectiveToolPolicyForDelegatee, getCustomToolPolicyForDelegatee.
  destruct (bool_decide _) eqn:Hin; cbn [negb].
  - apply bool_decide_eq_true in Hin.
    assert (Heff : forall r : result (string * bool),
               (exists x, r = Ok x) -> r = Revert e <-> False).
    { intros r [x ->]. split; [discriminate | tauto]. }
    split.
    + rewrite Heff
        by (destruct (_ && _); [eauto |]; destruct (_ && _); eauto).
      rewrite Heff by (destruct (negb _); eauto). tauto.
    + rewrite Heff by (destruct (negb _); eauto).
      split; [tauto | intros [_ Hout]; now apply Hout].
  - apply bool_decide_eq_false in Hin. split; [tauto |].
    split.
    + intros [= <-]. now split.
    + now intros [-> _].
Qed.

(** X2: the resolution flags its result delegatee-specific exactly when
    the raw custom lookup reports the same identifier as enabled; and
    when the raw lookup reports a policy that is not enabled, or none,
    the resolution returns a result that is not delegatee-specific. *)
Theorem delegatee_specific_iff_enabled_custom msg_sender l pkpTokenId
    toolIpfsCid delegatee (policyIpfsCid : string) :
  (getEffectiveToolPolicyForDelegatee _hashToolCid msg_sender l pkpTokenId
     toolIpfsCid delegatee = Ok (policyIpfsCid, true)
   <->
   getCustomToolPolicyForDelegatee _hashToolCid msg_sender l pkpTokenId
     toolIpfsCid delegatee = Ok (policyIpfsCid, true))
  /\
  (getCustomToolPolicyForDelegatee _hashToolCid msg_sender l pkpTokenId
     toolIpfsCid delegatee = Ok (policyIpfsCid, false) ->
   exists fallback,
     getEffectiveToolPolicyForDelegatee _hashToolCid msg_sender l pkpTokenId
       toolIpfsCid delegatee = Ok (fallback, false)).
Proof.
  unfold getEffectiveToolPolicyForDelegatee, getCustomToolPolicyForDelegatee.
  destruct (bool_decide _); cbn [negb]; [| split; [split |]; discriminate].
  set (custom := customPolicy_at _ delegatee).
  set (blanket := blanketPolicy_at _ 0).
  destruct (policyIpfsCidHash custom =? 0); cbn [negb andb].
  - split.
    + split; [| discriminate].
      destruct (_ && _); discriminate.
    + intros _. destruct (_ && _); eauto.
  - destruct (enabled custom).
    + split; [tauto | discriminate].
    + split.
      * split; [| discriminate]. destruct (_ && _); discriminate.
      * intros _. destruct (_ && _); eauto.
Qed.

(** X3: the fallback is shared: two delegatees whose resolution on the
    same tool is not delegatee-specific get the same identifier, whoever
    asks. *)
Theorem fallback_is_shared msg_sender msg_sender' l pkpTokenId toolIpfsCid
    delegatee delegatee' (policyIpfsCid policyIpfsCid' : string) :
  getEffectiveToolPolicyForDelegatee _hashToolCid msg_sender l pkpTokenId
    toolIpfsCid delegatee = Ok (policyIpfsCid, false) ->
  getEffectiveToolPolicyForDelegatee _hashToolCid msg_sender' l pkpTokenId
    toolIpfsCid delegatee' = Ok (policyIpfsCid', false) ->
  policyIpfsCid = policyIpfsCid'.
Proof.
  unfold getEffectiveToolPolicyForDelegatee.
  destruct (bool_decide _); cbn [negb]; [| discriminate].
  destruct (_ && _); [discriminate |].
  destruct (negb (policyIpfsCidHash (customPolicy_at _ delegatee') =? 0)
            && _); [discriminate |].
  destruct (_ && _); congruence.
Qed.

End ReadsTogether.

Lemma fallback_is_shared_witness :
  getEffectiveToolPolicyForDelegatee sample_hash alice (with_policies false) 1
    "cidA" alice = Ok ("polA"%string, false)
  /\
  getEffectiveToolPolicyForDelegatee sample_hash bob (with_policies false) 1
    "cidA" bob = Ok ("polA"%string, false)
  /\ "polA"%string = "polA"%string.
Proof.
  split; [vm_compute; reflexivity |]. split; [vm_compute; reflexivity |].
  apply (fallback_is_shared sample_hash alice bob (with_policies false) 1
           "cidA" alice bob "polA" "polA"); vm_compute; reflexivity.
Defined.

(** ** What the entry points do around any helper *)

(** A loop that reverted did so in one of its iterations. *)
Lemma for_range_revert_inv (body : nat -> M unit) (e : Error) :
  forall count start w w',
    for_range start count body w = (Revert e, w') ->
    exists k u, (start <= k < start + count)%nat /\ body k u = (Revert e, w').
Proof.
  induction count as [| count IH]; intros start w w' Hloop;
    cbn [for_range] in Hloop.
  - discriminate.
  - unfold bind in Hloop. destruct (body start w) as [[[] | e0] w1] eqn:Hb.
    + apply IH in Hloop as (k & u & Hk & Hbody).
      exists k, u. split; [lia | exact Hbody].
    + injection Hloop as -> ->. exists start, w. split; [lia | exact Hb].
Qed.

(** A loop that completed ran each of its iterations to completion. *)
Lemma for_range_ok_all (body : nat -> M unit) :
  forall count start w w',
    for_range start count body w = (Ok tt, w') ->
    forall k, (start <= k < start + count)%nat ->
              exists u u', body k u = (Ok tt, u').
Proof.
  induction count as [| count IH]; intros start w w' Hloop k Hk; [lia |].
  apply for_range_ok_inv in Hloop as (w1 & Hbody & Hrest).
  destruct (decide (k = start)) as [-> | Hne]; [eauto |].
  apply (IH _ _ _ Hrest). lia.
Qed.

Section AroundTheHelper.

Variable ownerOf : uint256 -> address.

Variables (toolIpfsCids : list string) (delegatees : list Z)
  (policyIpfsCids : list string).

Lemma each_delegatee_ok_inv (helper : string -> Z -> M unit) (k : nat)
    (u u' : World) :
  each_delegatee toolIpfsCids delegatees helper k u = (Ok tt, u') ->
  exists t d, toolIpfsCids !! k = Some t /\ delegatees !! k = Some d
              /\ d ≠ 0 /\ helper t d u = (Ok tt, u').
Proof.
  unfold each_delegatee, bind, array_get.
  destruct (delegatees !! k) as [d |]; [| discriminate].
  unfold ret at 1. destruct (d =? 0) eqn:Hd; [discriminate |].
  apply Z.eqb_neq in Hd.
  destruct (toolIpfsCids !! k) as [t |]; [| discriminate].
  unfold ret at 1. intros H. exists t, d. auto.
Qed.

Lemma each_delegatee_revert_inv (helper : string -> Z -> M unit) (k : nat)
    (u u' : World) (e : Error) :
  (k < length toolIpfsCids)%nat -> (k < length delegatees)%nat ->
  each_delegatee toolIpfsCids delegatees helper k u = (Revert e, u') ->
  (delegatees !! k = Some 0 /\ e = InvalidDelegatee)
  \/ (exists t d, toolIpfsCids !! k = Some t /\ delegatees !! k = Some d
                  /\ d ≠ 0 /\ helper t d u = (Revert e, u')).
Proof.
  intros Ht Hd. apply lookup_lt_is_Some_2 in Ht as [t Ht], Hd as [d Hd].
  unfold each_delegatee, bind, array_get. rewrite Hd, Ht.
  unfold ret at 1. destruct (d =? 0) eqn:Hz.
  - apply Z.eqb_eq in Hz as ->. intros [= <- <-]. now left.
  - apply Z.eqb_neq in Hz. unfold ret at 1. intros H.
    right. exists t, d. auto.
Qed.

Lemma set_each_with_ok_inv (helper : string -> Z -> string -> M unit)
    (k : nat) (u u' : World) :
  set_each_with toolIpfsCids delegatees policyIpfsCids helper k u = (Ok tt, u') ->
  exists t d p, toolIpfsCids !! k = Some t /\ delegatees !! k = Some d
                /\ policyIpfsCids !! k = Some p
                /\ d ≠ 0 /\ helper t d p u = (Ok tt, u').
Proof.
  unfold set_each_with, bind, array_get.
  destruct (delegatees !! k) as [d |]; [| discriminate].
  unfold ret at 1. destruct (d =? 0) eqn:Hd; [discriminate |].
  apply Z.eqb_neq in Hd.
  destruct (toolIpfsCids !! k) as [t |]; [| discriminate].
  unfold ret at 1. destruct (policyIpfsCids !! k) as [p |]; [| discriminate].
  unfold ret at 1. intros H. exists t, d, p. auto.
Qed.

Lemma set_each_with_revert_inv (helper : string -> Z -> string -> M unit)
    (k : nat) (u u' : World) (e : Error) :
  (k < length toolIpfsCids)%nat -> (k < length delegatees)%nat ->
  (k < length policyIpfsCids)%nat ->
  set_each_with toolIpfsCids delegatees policyIpfsCids helper k u = (Revert e, u') ->
  (delegatees !! k = Some 0 /\ e = InvalidDelegatee)
  \/ (exists t d p, toolIpfsCids !! k = Some t /\ delegatees !! k = Some d
                    /\ policyIpfsCids !! k = Some p
                    /\ d ≠ 0 /\ helper t d p u = (Revert e, u')).
Proof.
  intros Ht Hd Hp.
  apply lookup_lt_is_Some_2 in Ht as [t Ht], Hd as [d Hd], Hp as [p Hp].
  unfold set_each_with, bind, array_get. rewrite Hd, Ht, Hp.
  unfold ret at 1. destruct (d =? 0) eqn:Hz.
  - apply Z.eqb_eq in Hz as ->. intros [= <- <-]. now left.
  - apply Z.eqb_neq in Hz. unfold ret at 1. unfold ret at 1. intros H.
    right. exists t, d, p. auto.
Qed.

(** The three entry points of two arrays are [batch_entry] at their
    helper and event, and the set entry point is [set_entry]. *)
Lemma entry_points_have_the_shape (_hashToolCid _hashPolicyCid : string -> Z)
    (msg_sender pkpTokenId : Z) (enablePolicies : bool) :
  removeCustomToolPoliciesForDelegatees _hashToolCid ownerOf msg_sender
    pkpTokenId toolIpfsCids delegatees =
  batch_entry ownerOf msg_sender pkpTokenId toolIpfsCids delegatees
    (_removeToolPolicy _hashToolCid pkpTokenId)
    (ToolPoliciesRemoved pkpTokenId toolIpfsCids delegatees)
  /\
  enableCustomToolPoliciesForDelegatees _hashToolCid ownerOf msg_sender
    pkpTokenId toolIpfsCids delegatees =
  batch_entry ownerOf msg_sender pkpTokenId toolIpfsCids delegatees
    (_enablePolicy _hashToolCid pkpTokenId)
    (PoliciesEnabled pkpTokenId toolIpfsCids delegatees)
  /\
  disableCustomToolPoliciesForDelegatees _hashToolCid ownerOf msg_sender
    pkpTokenId toolIpfsCids delegatees =
  batch_entry ownerOf msg_sender pkpTokenId toolIpfsCids delegatees
    (_disablePolicy _hashToolCid pkpTokenId)
    (PoliciesDisabled pkpTokenId toolIpfsCids delegatees)
  /\
  setCustomToolPoliciesForDelegatees _hashToolCid _hashPolicyCid ownerOf
    msg_sender pkpTokenId toolIpfsCids delegatees policyIpfsCids
    enablePolicies =
  set_entry ownerOf msg_sender pkpTokenId toolIpfsCids delegatees
    policyIpfsCids
    (fun t d p =>
       _setToolPolicy _hashToolCid _hashPolicyCid pkpTokenId t d p
         enablePolicies)
    (ToolPoliciesSet pkpTokenId toolIpfsCids delegatees policyIpfsCids
       enablePolicies).
Proof. repeat split; reflexivity. Qed.

(** X4: a call of a two-array entry point that goes through, whatever
    its helper does, was sent by the owner of the PKP, with arrays of the
    same length and without a zero delegatee; the helper succeeded on
    every pair of the batch, and the event of the call is the last entry
    of the log. *)
Theorem successful_batch_inversion (msg_sender pkpTokenId : Z)
    (helper : string -> Z -> M unit) (ev : Event) (w w' : World) :
  external_call
    (batch_entry ownerOf msg_sender pkpTokenId toolIpfsCids delegatees
       helper ev) w = (Ok tt, w') ->
  msg_sender = ownerOf pkpTokenId
  /\ length toolIpfsCids = length delegatees
  /\ (0 ∉ delegatees)
  /\ (forall k t d, toolIpfsCids !! k = Some t -> delegatees !! k = Some d ->
        exists u u', helper t d u = (Ok tt, u'))
  /\ last (logs w') = Some ev.
Proof.
  intros Hcall. apply external_call_ok_inv in Hcall.
  unfold batch_entry, onlyPKPOwner in Hcall.
  destruct (bool_decide _) eqn:Howner; [| discriminate].
  apply bool_decide_eq_true in Howner.
  destruct (negb _) eqn:Hlen; [discriminate |].
  apply negb_false_iff, Nat.eqb_eq in Hlen.
  unfold bind in Hcall.
  destruct (for_range _ _ _ w) as [[[] | e] w1] eqn:Hloop; [| discriminate].
  unfold emit in Hcall. injection Hcall as <-.
  pose proof (for_range_ok_all _ _ _ _ _ Hloop) as Hall.
  repeat split; try assumption.
  - intros Hzero. apply list_elem_of_lookup in Hzero as [k Hk].
    destruct (Hall k) as (u & u' & Hbody).
    { apply lookup_lt_Some in Hk. lia. }
    apply each_delegatee_ok_inv in Hbody as (t & d & _ & Hd & Hnz & _).
    congruence.
  - intros k t d Ht Hd. destruct (Hall k) as (u & u' & Hbody).
    { apply lookup_lt_Some in Ht. lia. }
    apply each_delegatee_ok_inv in Hbody as (t0 & d0 & Ht0 & Hd0 & _ & Hh).
    exists u, u'. congruence.
  - cbn [logs]. apply last_snoc.
Qed.

(** X5: as X4, for the set entry point and its three arrays. *)
Theorem successful_set_inversion (msg_sender pkpTokenId : Z)
    (helper : string -> Z -> string -> M unit) (ev : Event) (w w' : World) :
  external_call
    (set_entry ownerOf msg_sender pkpTokenId toolIpfsCids delegatees
       policyIpfsCids helper ev) w = (Ok tt, w') ->
  msg_sender = ownerOf pkpTokenId
  /\ length toolIpfsCids = length delegatees
  /\ length delegatees = length policyIpfsCids
  /\ (0 ∉ delegatees)
  /\ (forall k t d p, toolIpfsCids !! k = Some t -> delegatees !! k = Some d ->
        policyIpfsCids !! k = Some p ->
        exists u u', helper t d p u = (Ok tt, u'))
  /\ last (logs w') = Some ev.
Proof.
  intros Hcall. apply external_call_ok_inv in Hcall.
  unfold set_entry, onlyPKPOwner in Hcall.
  destruct (bool_decide _) eqn:Howner; [| discriminate].
  apply bool_decide_eq_true in Howner.
  destruct (_ || _) eqn:Hlen; [discriminate |].
  apply orb_false_iff in Hlen as [H1 H2].
  apply negb_false_iff, Nat.eqb_eq in H1, H2.
  unfold bind in Hcall.
  destruct (for_range _ _ _ w) as [[[] | e] w1] eqn:Hloop; [| discriminate].
  unfold emit in Hcall. injection Hcall as <-.
  pose proof (for_range_ok_all _ _ _ _ _ Hloop) as Hall.
  repeat split; try assumption.
  - intros Hzero. apply list_elem_of_lookup in Hzero as [k Hk].
    destruct (Hall k) as (u & u' & Hbody).
    { apply lookup_lt_Some in Hk. lia. }
    apply set_each_with_ok_inv in Hbody as (t & d & p & _ & Hd & _ & Hnz & _).
    congruence.
  - intros k t d p Ht Hd Hp. destruct (Hall k) as (u & u' & Hbody).
    { apply lookup_lt_Some in Ht. lia. }
    apply set_each_with_ok_inv in Hbody
      as (t0 & d0 & p0 & Ht0 & Hd0 & Hp0 & _ & Hh).
    exists u, u'. congruence.
  - cbn [logs]. apply last_snoc.
Qed.

(** X6: where the failure of a two-array entry point comes from,
    whatever its helper does: the caller is not the owner
    ([NotPKPOwner]), or the arrays differ in length
    ([ArrayLengthMismatch]), or a delegatee of the batch is the zero
    address ([InvalidDelegatee]), or the helper itself raised the error
    on a pair of the batch with a non-zero delegatee. The array reads of
    the loop never go out of bounds. *)
Theorem failed_batch_provenance (msg_sender pkpTokenId : Z)
    (helper : string -> Z -> M unit) (ev : Event) (w : World) (e : Error) :
  fst (external_call
         (batch_entry ownerOf msg_sender pkpTokenId toolIpfsCids delegatees
            helper ev) w) = Revert e ->
  (msg_sender ≠ ownerOf pkpTokenId /\ e = NotPKPOwner)
  \/ (msg_sender = ownerOf pkpTokenId
      /\ length toolIpfsCids ≠ length delegatees
      /\ e = ArrayLengthMismatch)
  \/ (msg_sender = ownerOf pkpTokenId
      /\ length toolIpfsCids = length delegatees
      /\ ((0 ∈ delegatees /\ e = InvalidDelegatee)
          \/ (exists k t d u u',
                toolIpfsCids !! k = Some t /\ delegatees !! k = Some d
                /\ d ≠ 0 /\ helper t d u = (Revert e, u')))).
Proof.
  unfold external_call, batch_entry, onlyPKPOwner.
  destruct (bool_decide _) eqn:Howner.
  2: { apply bool_decide_eq_false in Howner. cbn. intros [= <-]. now left. }
  apply bool_decide_eq_true in Howner.
  destruct (negb _) eqn:Hlen.
  { apply negb_true_iff, Nat.eqb_neq in Hlen. cbn. intros [= <-].
    right. left. auto. }
  apply negb_false_iff, Nat.eqb_eq in Hlen.
  unfold bind.
  destruct (for_range _ _ _ w) as [[[] | e0] w1] eqn:Hloop; cbn;
    [discriminate |].
  intros [= ->]. right. right. split; [exact Howner |]. split; [exact Hlen |].
  apply for_range_revert_inv in Hloop as (k & u & Hk & Hbody).
  apply each_delegatee_revert_inv in Hbody as [[Hz ->] | Hhelper]; try lia.
  - left. split; [| reflexivity]. apply list_elem_of_lookup. eauto.
  - right. destruct Hhelper as (t & d & ? & ? & ? & ?). eauto 10.
Qed.

(** X7: as X6, for the set entry point and its three arrays. *)
Theorem failed_set_provenance (msg_sender pkpTokenId : Z)
    (helper : string -> Z -> string -> M unit) (ev : Event) (w : World)
    (e : Error) :
  fst (external_call
         (set_entry ownerOf msg_sender pkpTokenId toolIpfsCids delegatees
            policyIpfsCids helper ev) w) = Revert e ->
  (msg_sender ≠ ownerOf pkpTokenId /\ e = NotPKPOwner)
  \/ (msg_sender = ownerOf pkpTokenId
      /\ ¬ (length toolIpfsCids = length delegatees
            /\ length delegatees = length policyIpfsCids)
      /\ e = ArrayLengthMismatch)
  \/ (msg_sender = ownerOf pkpTokenId
      /\ length toolIpfsCids = length delegatees
      /\ length delegatees = length policyIpfsCids
      /\ ((0 ∈ delegatees /\ e = InvalidDelegatee)
          \/ (exists k t d p u u',
                toolIpfsCids !! k = Some t /\ delegatees !! k = Some d
                /\ policyIpfsCids !! k = Some p
                /\ d ≠ 0 /\ helper t d p u = (Revert e, u')))).
Proof.
  unfold external_call, set_entry, onlyPKPOwner.
  destruct (bool_decide _) eqn:Howner.
  2: { apply bool_decide_eq_false in Howner. cbn. intros [= <-]. now left. }
  apply bool_decide_eq_true in Howner.
  destruct (_ || _) eqn:Hlen.
  { cbn. intros [= <-]. right. left. split; [exact Howner |].
    split; [| reflexivity]. intros [H1 H2].
    rewrite H1, H2, !Nat.eqb_refl in Hlen. discriminate. }
  apply orb_false_iff in Hlen as [H1 H2].
  apply negb_false_iff, Nat.eqb_eq in H1, H2.
  unfold bind.
  destruct (for_range _ _ _ w) as [[[] | e0] w1] eqn:Hloop; cbn;
    [discriminate |].
  intros [= ->]. right. right. repeat (split; [assumption |]).
  apply for_range_revert_inv in Hloop as (k & u & Hk & Hbody).
  apply set_each_with_revert_inv in Hbody as [[Hz ->] | Hhelper]; try lia.
  - left. split; [| reflexivity]. apply list_elem_of_lookup. eauto.
  - right. destruct Hhelper as (t & d & p & ? & ? & ? & ? & ?). eauto 12.
Qed.

End AroundTheHelper.

(** ** The empty batch *)

Section EmptyBatch.

Variable _hashToolCid : string -> bytes32.
Variable _hashPolicyCid : string -> bytes32.
Variable ownerOf : uint256 -> address.

(** X8: each of the four batch functions accepts empty arrays from the
    owner: the call succeeds, storage is untouched, and the one thing
    that happens is that the event of the call, with its empty arrays,
    is appended to the log. *)
Theorem empty_batch_only_logs (msg_sender pkpTokenId : Z)
    (enablePolicies : bool) (w : World) :
  msg_sender = ownerOf pkpTokenId ->
  external_call
    (setCustomToolPoliciesForDelegatees _hashToolCid _hashPolicyCid ownerOf
       msg_sender pkpTokenId [] [] [] enablePolicies) w =
  (Ok tt, mkWorld (storage w)
            (logs w ++ [ToolPoliciesSet pkpTokenId [] [] [] enablePolicies]))
  /\
  external_call
    (removeCustomToolPoliciesForDelegatees _hashToolCid ownerOf msg_sender
       pkpTokenId [] []) w =
  (Ok tt, mkWorld (storage w) (logs w ++ [ToolPoliciesRemoved pkpTokenId [] []]))
  /\
  external_call
    (enableCustomToolPoliciesForDelegatees _hashToolCid ownerOf msg_sender
       pkpTokenId [] []) w =
  (Ok tt, mkWorld (storage w) (logs w ++ [PoliciesEnabled pkpTokenId [] []]))
  /\
  external_call
    (disableCustomToolPoliciesForDelegatees _hashToolCid ownerOf msg_sender
       pkpTokenId [] []) w =
  (Ok tt, mkWorld (storage w) (logs w ++ [PoliciesDisabled pkpTokenId [] []])).
Proof.
  intros Howner.
  unfold setCustomToolPoliciesForDelegatees,
    removeCustomToolPoliciesForDelegatees,
    enableCustomToolPoliciesForDelegatees,
    disableCustomToolPoliciesForDelegatees.
  rewrite !onlyPKPOwner_owner by exact Howner.
  repeat split.
Qed.

End EmptyBatch.

(** ** The schema of the signing tool *)

Lemma trimStart_nil_iff (val : list Z) :
  trimStart val = [] <-> Forall (fun c => is_js_whitespace c = true) val.
Proof.
  induction val as [| c val IH]; cbn [trimStart].
  - split; [constructor | reflexivity].
  - destruct (is_js_whitespace c) eqn:Hc.
    + rewrite IH. split; [now constructor | now inversion 1].
    + split; [discriminate |]. inversion 1; congruence.
Qed.

(** What is left after [trimStart] begins with a visible code unit. *)
Lemma trimStart_head (val : list Z) (c : Z) (rest : list Z) :
  trimStart val = c :: rest -> is_js_whitespace c = false.
Proof.
  induction val as [| c0 val IH]; cbn [trimStart]; [discriminate |].
  destruct (is_js_whitespace c0) eqn:Hc; [exact IH |].
  now intros [= <- _].
Qed.

Lemma trim_nil_iff (val : list Z) :
  trim val = [] <-> Forall (fun c => is_js_whitespace c = true) val.
Proof.
  unfold trim, trimEnd. split.
  - intros H.
    assert (H' : trimStart (reverse (trimStart val)) = []).
    { apply (inj reverse). now rewrite reverse_nil. }
    apply trimStart_nil_iff in H'. rewrite Forall_reverse in H'.
    destruct (trimStart val) as [| c rest] eqn:Hs.
    + now apply trimStart_nil_iff.
    + apply trimStart_head in Hs. apply Forall_cons in H' as [Hc _].
      congruence.
  - intros H. apply trimStart_nil_iff in H. rewrite H. reflexivity.
Qed.

(** [val.trim().length > 0] says that [val] holds a code unit that is
    not white space. *)
Lemma trim_length_pos_iff (val : list Z) :
  (0 < length (trim val))%nat <->
  exists c, c ∈ val /\ is_js_whitespace c = false.
Proof.
  split.
  - intros Htrim.
    destruct (decide (Forall (fun c => is_js_whitespace c = true) val))
      as [Hall | Hsome].
    + apply trim_nil_iff in Hall. rewrite Hall in Htrim. cbn in Htrim. lia.
    + apply not_Forall_Exists in Hsome; [| intros c; apply _].
      apply Exists_exists in Hsome as (c & Hin & Hc).
      exists c. split; [exact Hin |]. apply not_true_is_false, Hc.
  - intros (c & Hin & Hc).
    assert (Hnot : ¬ Forall (fun c => is_js_whitespace c = true) val).
    { intros Hall. rewrite Forall_forall in Hall.
      specialize (Hall c Hin). congruence. }
    rewrite <- trim_nil_iff in Hnot.
    destruct (trim val); [done | cbn; lia].
Qed.

Lemma is_digit_iff (c : Z) : is_digit c = true <-> 0x30 <= c <= 0x39.
Proof. unfold is_digit. rewrite andb_true_iff, !Z.leb_le. tauto. Qed.

Lemma digit_not_whitespace (c : Z) :
  is_digit c = true -> is_js_whitespace c = false.
Proof.
  rewrite is_digit_iff. intros Hc. apply bool_decide_eq_false.
  rewrite !elem_of_cons, elem_of_nil. lia.
Qed.

Lemma digits_test_iff (val : list Z) :
  digits_test val = true <->
  val ≠ [] /\ Forall (fun c => 0x30 <= c <= 0x39) val.
Proof.
  unfold digits_test. destruct val as [| c val].
  - split; [discriminate | intros [H _]; done].
  - rewrite forallb_forall, Forall_forall.
    split.
    + intros H. split; [done |]. intros x Hx. apply is_digit_iff, H.
      now apply list_elem_of_In.
    + intros [_ H] x Hx. apply is_digit_iff, H. now apply list_elem_of_In.
Qed.

Lemma startsWith_nonempty (val prefix : list Z) :
  prefix ≠ [] -> startsWith val prefix = true -> (1 <= length val)%nat.
Proof.
  destruct prefix as [| p prefix]; [done |]. intros _.
  destruct val; cbn; [discriminate | lia].
Qed.

Section SchemaFacts.

Variable is_url : list Z -> bool.

(** X9: the message passes its schema exactly when it holds a code unit
    that [trim] does not strip; the empty string and strings of white
    space only are the ones refused. *)
Theorem message_valid_iff_visible (val : list Z) :
  message_schema (JsString val) = true <->
  exists c, c ∈ val /\ is_js_whitespace c = false.
Proof.
  unfold message_schema. rewrite andb_true_iff, Nat.leb_le, Nat.ltb_lt.
  rewrite trim_length_pos_iff. split; [tauto |].
  intros (c & Hin & Hc). split; [| eauto].
  destruct val; [inversion Hin | cbn; lia].
Qed.

(** X10: the chain id passes its schema exactly when it is a non-empty
    string of ASCII digits; the length and the white space checks of the
    schema refuse nothing that the pattern accepts. *)
Theorem chainId_valid_iff_digits (val : list Z) :
  chainId_schema (JsString val) = true <->
  val ≠ [] /\ Forall (fun c => 0x30 <= c <= 0x39) val.
Proof.
  unfold chainId_schema.
  rewrite !andb_true_iff, Nat.leb_le, Nat.ltb_lt.
  pose proof (digits_test_iff val) as Hdigits.
  split.
  - intros (_ & _ & H). now apply Hdigits.
  - intros H. pose proof H as [Hne Hall]. apply Hdigits in H.
    destruct val as [| c val]; [done |].
    split; [cbn; lia |]. split; [| exact H].
    apply trim_length_pos_iff. exists c. split; [left |].
    apply digit_not_whitespace, is_digit_iff.
    now inversion Hall.
Qed.

(** X11: the type guard accepts exactly the objects whose [message],
    [chainId] and [rpcUrl] properties are strings, the message with a
    code unit that is not white space, the chain id a non-empty string of
    ASCII digits, and the URL one that the URL check accepts and that
    starts with [http://] or [https://]. *)
Theorem valid_parameters_iff (params : JsValue) :
  isValidSigningSimpleParameters is_url params = true <->
  exists props message chainId rpcUrl,
    params = JsObject props
    /\ props !! "message"%string = Some (JsString message)
    /\ props !! "chainId"%string = Some (JsString chainId)
    /\ props !! "rpcUrl"%string = Some (JsString rpcUrl)
    /\ (exists c, c ∈ message /\ is_js_whitespace c = false)
    /\ (chainId ≠ [] /\ Forall (fun c => 0x30 <= c <= 0x39) chainId)
    /\ is_url rpcUrl = true
    /\ (startsWith rpcUrl (js "http://") = true
        \/ startsWith rpcUrl (js "https://") = true).
Proof.
  unfold isValidSigningSimpleParameters, SigningSimpleLitActionSchema.
  split.
  - destruct params as [| props |]; try discriminate.
    unfold get_property.
    destruct (props !! "message"%string) as [[m | |] |] eqn:Hm;
      try discriminate.
    destruct (props !! "chainId"%string) as [[c | |] |] eqn:Hc; cbn [default];
      try (cbn; rewrite ?andb_false_r; discriminate).
    destruct (props !! "rpcUrl"%string) as [[r | |] |] eqn:Hr; cbn [default];
      try (cbn; rewrite ?andb_false_r; discriminate).
    destruct (_ && _ && _) eqn:Hall; [| discriminate]. intros _.
    apply andb_true_iff in Hall as [Hall Hurl].
    apply andb_true_iff in Hall as [Hmsg Hchain].
    cbn [message_schema] in Hmsg. cbn [chainId_schema] in Hchain.
    cbn [rpcUrl_schema] in Hurl.
    apply andb_true_iff in Hmsg as [_ Hmsg]. apply Nat.ltb_lt in Hmsg.
    apply andb_true_iff in Hchain as [_ Hchain].
    apply andb_true_iff in Hchain as [_ Hchain].
    apply andb_true_iff in Hurl as [Hurl Hscheme].
    apply andb_true_iff in Hurl as [_ Hurl].
    apply orb_true_iff in Hscheme.
    apply trim_length_pos_iff in Hmsg. apply digits_test_iff in Hchain.
    exists props, m, c, r. auto 10.
  - intros (props & m & c & r & -> & Hm & Hc & Hr & Hvis & Hdig & Hurl & Hscheme).
    unfold get_property. rewrite Hm, Hc, Hr. cbn [default id].
    cbn [message_schema chainId_schema rpcUrl_schema].
    assert (Hc1 : (0 <? length (trim c))%nat = true).
    { apply Nat.ltb_lt, trim_length_pos_iff.
      destruct Hdig as [Hne Hall]. destruct c as [| x c]; [done |].
      exists x. split; [left |].
      apply digit_not_whitespace, is_digit_iff. now inversion Hall. }
    assert (Hm0 : (1 <=? length m)%nat = true).
    { apply Nat.leb_le. destruct Hvis as (x & Hx & _).
      destruct m; [inversion Hx | cbn; lia]. }
    assert (Hc0 : (1 <=? length c)%nat = true).
    { apply Nat.leb_le. destruct Hdig as [Hne _].
      destruct c; [done | cbn; lia]. }
    assert (Hr0 : (1 <=? length r)%nat = true).
    { apply Nat.leb_le.
      destruct Hscheme as [H | H];
        (eapply startsWith_nonempty; [| exact H]); discriminate. }
    apply trim_length_pos_iff, Nat.ltb_lt in Hvis.
    apply digits_test_iff in Hdig. apply orb_true_iff in Hscheme.
    now rewrite Hm0, Hvis, Hc0, Hc1, Hdig, Hr0, Hurl, Hscheme.
Qed.

(** X12: properties other than the three of the schema do not count:
    adding one to an object, or changing it, leaves the verdict of the
    type guard as it was. *)
Theorem unknown_properties_are_ignored (props : gmap string JsValue)
    (key : string) (v : JsValue) :
  key ≠ "message"%string -> key ≠ "chainId"%string ->
  key ≠ "rpcUrl"%string ->
  isValidSigningSimpleParameters is_url (JsObject (<[key := v]> props)) =
  isValidSigningSimpleParameters is_url (JsObject props).
Proof.
  intros Hm Hc Hr.
  unfold isValidSigningSimpleParameters, SigningSimpleLitActionSchema,
    get_property.
  now rewrite !lookup_insert_ne by done.
Qed.

End SchemaFacts.

(** ** Worked instances of the further properties *)

(** The owner enables the policy of [alice]: the call goes through and
    its event closes the log. *)
Lemma successful_batch_inversion_witness :
  let w' := snd (external_call
                   (sample_enable sample_owner 1 ["cidA"]%string [alice])
                   (fresh (with_policies false))) in
  (0 ∉ [alice])
  /\ last (logs w') = Some (PoliciesEnabled 1 ["cidA"]%string [alice]).
Proof.
  cbv zeta.
  pose proof (successful_batch_inversion sample_ownerOf ["cidA"]%string
                [alice] sample_owner 1 (_enablePolicy sample_hash 1)
                (PoliciesEnabled 1 ["cidA"]%string [alice])
                (fresh (with_policies false))
                (snd (external_call
                        (sample_enable sample_owner 1 ["cidA"]%string [alice])
                        (fresh (with_policies false))))) as H.
  destruct H as (_ & _ & Hzero & _ & Hlast).
  - vm_compute. reflexivity.
  - split; [exact Hzero | exact Hlast].
Defined.

(** The owner sets a policy for [alice]. *)
Lemma successful_set_inversion_witness :
  let w' := snd (external_call
                   (sample_set sample_owner 1 ["cidA"]%string [alice]
                      ["polB"]%string true)
                   (fresh registered_only)) in
  (0 ∉ [alice])
  /\ last (logs w') =
     Some (ToolPoliciesSet 1 ["cidA"]%string [alice] ["polB"]%string true).
Proof.
  cbv zeta.
  pose proof (successful_set_inversion sample_ownerOf ["cidA"]%string
                [alice] ["polB"]%string sample_owner 1
                (fun t d p => _setToolPolicy sample_hash sample_hash 1 t d p true)
                (ToolPoliciesSet 1 ["cidA"]%string [alice] ["polB"]%string true)
                (fresh registered_only)
                (snd (external_call
                        (sample_set sample_owner 1 ["cidA"]%string [alice]
                           ["polB"]%string true)
                        (fresh registered_only)))) as H.
  destruct H as (_ & _ & _ & Hzero & _ & Hlast).
  - vm_compute. reflexivity.
  - split; [exact Hzero | exact Hlast].
Defined.

(** The owner enables the policy of [bob], who has none: the error comes
    from the helper, on a pair of the batch. *)
Lemma failed_batch_provenance_witness :
  exists k t d u u',
    ["cidA"]%string !! k = Some t /\ [bob] !! k = Some d /\ d ≠ 0
    /\ _enablePolicy sample_hash 1 t d u = (Revert NoPolicySet, u').
Proof.
  destruct (failed_batch_provenance sample_ownerOf ["cidA"]%string [bob]
              sample_owner 1 (_enablePolicy sample_hash 1)
              (PoliciesEnabled 1 ["cidA"]%string [bob])
              (fresh (with_policies false)) NoPolicySet)
    as [[Hstranger _] | [(_ & Hlen & _) | (_ & _ & [[_ He] | Hhelper])]].
  - vm_compute. reflexivity.
  - exfalso. apply Hstranger. reflexivity.
  - exfalso. apply Hlen. reflexivity.
  - discriminate He.
  - exact Hhelper.
Defined.

(** The owner sets a policy on a tool that is not registered. *)
Lemma failed_set_provenance_witness :
  exists k t d p u u',
    ["cidB"]%string !! k = Some t /\ [bob] !! k = Some d
    /\ ["polB"]%string !! k = Some p /\ d ≠ 0
    /\ _setToolPolicy sample_hash sample_hash 1 t d p true u =
       (Revert (ToolNotFound "cidB"), u').
Proof.
  destruct (failed_set_provenance sample_ownerOf ["cidB"]%string [bob]
              ["polB"]%string sample_owner 1
              (fun t d p => _setToolPolicy sample_hash sample_hash 1 t d p true)
              (ToolPoliciesSet 1 ["cidB"]%string [bob] ["polB"]%string true)
              (fresh registered_only) (ToolNotFound "cidB"))
    as [[Hstranger _] | [(_ & Hlen & _) | (_ & _ & _ & [[_ He] | Hhelper])]].
  - vm_compute. reflexivity.
  - exfalso. apply Hstranger. reflexivity.
  - exfalso. apply Hlen. split; reflexivity.
  - discriminate He.
  - exact Hhelper.
Defined.

Lemma empty_batch_only_logs_witness :
  external_call (sample_remove sample_owner 1 [] []) (fresh (with_policies true)) =
  (Ok tt, mkWorld (with_policies true) [ToolPoliciesRemoved 1 [] []]).
Proof.
  refine (proj1 (proj2 (empty_batch_only_logs sample_hash sample_hash
                          sample_ownerOf sample_owner 1 true
                          (fresh (with_policies true)) _))).
  reflexivity.
Defined.

(** Well-formed parameters stay valid with a property the schema does
    not know. *)
Lemma unknown_properties_are_ignored_witness :
  isValidSigningSimpleParameters any_url
    (JsObject (<["note"%string := JsOther]>
                 {[ "message"%string := JsString (js "hello");
                    "chainId"%string := JsString (js "84532");
                    "rpcUrl"%string := JsString (js "https://rpc.example") ]})) =
  isValidSigningSimpleParameters any_url
    (signing_params "hello" "84532" "https://rpc.example").
Proof.
  apply (unknown_properties_are_ignored any_url); discriminate.
Defined.

(** The type guard on a few parameter objects: well-formed ones, a
    message of blanks, a chain id with a trailing blank, a URL with
    another scheme, and a value that is not an object. *)
Example type_guard_samples :
  isValidSigningSimpleParameters any_url
    (signing_params "hello" "84532" "https://rpc.example") = true
  /\ isValidSigningSimpleParameters any_url
       (signing_params "   " "84532" "https://rpc.example") = false
  /\ isValidSigningSimpleParameters any_url
       (signing_params "hello" "84532 " "https://rpc.example") = false
  /\ isValidSigningSimpleParameters any_url
       (signing_params "hello" "1" "ftp://rpc.example") = false
  /\ isValidSigningSimpleParameters any_url (JsString (js "hello")) = false.
Proof. repeat split; vm_compute; reflexivity. Qed.
